(** * Screenshot plugin (LOGO+P): a shallow embedding of [src/main.c]

    The plugin installs one global input hook.  The hook tracks whether a
    LOGO (meta) key is held and, when [P] is pressed while it is, saves
    the display framebuffer as a binary PPM file named after the local
    time.  This file embeds the three pieces of [main.c] that carry
    behaviour -- [save_screenshot], [input_hook_callback] and the
    [plugin_init]/[plugin_cleanup] pair -- as functions over an explicit
    program state, and proves the properties the specification states
    about them. *)

From Stdlib Require Import ZArith List String Ascii Bool Lia.
From Stdlib Require Import Strings.Byte.
From stdpp Require Import base gmap strings list.

Local Open Scope Z_scope.

(** ** C integers *)

Definition INT_MAX : Z := 2147483647.

(** [int] arithmetic: the mathematical result reduced to the signed
    32-bit range. *)
Definition wrap_int (z : Z) : Z := (z + 2 ^ 31) mod 2 ^ 32 - 2 ^ 31.

(** Conversion to [uint32_t]. *)
Definition to_uint32 (z : Z) : Z := z mod 2 ^ 32.

(** ** printf-style formatting *)

Definition digit_char (d : Z) : ascii :=
  match d with
  | 0 => "0" | 1 => "1" | 2 => "2" | 3 => "3" | 4 => "4"
  | 5 => "5" | 6 => "6" | 7 => "7" | 8 => "8" | _ => "9"
  end%char.

(** Decimal digits of a nonnegative number, least significant digit
    produced first and pushed in front of [acc]. *)
Fixpoint digits_aux (fuel : nat) (n : Z) (acc : string) : string :=
  match fuel with
  | O => acc
  | S fuel' =>
      let acc' := String (digit_char (n mod 10)) acc in
      if n <? 10 then acc' else digits_aux fuel' (n / 10) acc'
  end.

Definition digits (n : Z) : string :=
  digits_aux (S (Z.to_nat (Z.log2 n))) n EmptyString.

Fixpoint zeros (k : nat) : string :=
  match k with
  | O => EmptyString
  | S k' => String "0"%char (zeros k')
  end.

(** [%d] *)
Definition fmt_d (n : Z) : string :=
  if n <? 0 then String "-"%char (digits (- n)) else digits n.

(** [%0wd]: at least [w] characters, zeros inserted after the sign. *)
Definition fmt_0d (w : nat) (n : Z) : string :=
  let sign := if n <? 0 then String "-"%char EmptyString else EmptyString in
  let ds := digits (Z.abs n) in
  sign +:+ zeros (w - String.length sign - String.length ds) +:+ ds.

Inductive directive :=
| Lit (s : string)
| Fmt_d
| Fmt_0d (w : nat)
| Fmt_s.

Inductive arg :=
| Int (z : Z)
| Str (s : string).

Fixpoint format (fmt : list directive) (args : list arg) : string :=
  match fmt with
  | [] => EmptyString
  | Lit s :: fmt' => s +:+ format fmt' args
  | Fmt_d :: fmt' =>
      match args with
      | Int z :: args' => fmt_d z +:+ format fmt' args'
      | _ => EmptyString
      end
  | Fmt_0d w :: fmt' =>
      match args with
      | Int z :: args' => fmt_0d w z +:+ format fmt' args'
      | _ => EmptyString
      end
  | Fmt_s :: fmt' =>
      match args with
      | Str s :: args' => s +:+ format fmt' args'
      | _ => EmptyString
      end
  end.

Fixpoint string_take (k : nat) (s : string) : string :=
  match k, s with
  | S k', String c s' => String c (string_take k' s')
  | _, _ => EmptyString
  end.

(** [snprintf(buf, size, fmt, ...)]: at most [size - 1] characters are
    stored. *)
Definition snprintf (size : nat) (fmt : list directive) (args : list arg)
  : string :=
  string_take (size - 1) (format fmt args).

Definition nl : string := String "010"%char EmptyString.

(** ** Data *)

(** Scancodes (from bsp/input.h) *)
Definition BSP_INPUT_SCANCODE_P : Z := 0x19.
Definition BSP_INPUT_SCANCODE_LEFTMETA : Z := 0xe05b.
Definition BSP_INPUT_SCANCODE_RIGHTMETA : Z := 0xe05c.
Definition BSP_INPUT_SCANCODE_LEFTMETA_REL : Z := 0xe0db.
Definition BSP_INPUT_SCANCODE_RIGHTMETA_REL : Z := 0xe0dc.

(** Modelled from the spec: the event kinds of the host's plugin API,
    declared in tanmatsu_plugin.h, which is not part of the plugin.  The
    callback only tells the scancode kind from all other kinds. *)
Inductive plugin_input_event_type_t :=
| PLUGIN_INPUT_EVENT_TYPE_SCANCODE
| PLUGIN_INPUT_EVENT_TYPE_OTHER (kind : nat).

(** Modelled from the spec: the two fields of the host's event record
    that the callback reads. *)
Record plugin_input_event_t := {
  type : plugin_input_event_type_t;
  key : Z
}.

(** Modelled from the spec: [pax_buf_t] of pax_gfx.h, which is not part
    of the plugin, reduced to what the plugin reads.  [width] and
    [height] hold C [int] values; [pixels] is what [pax_buf_get_pixels]
    answers, [None] for a null pointer. *)
Record pax_buf_t := {
  width : Z;
  height : Z;
  pixels : option (list byte)
}.

(** [struct tm], the fields the plugin reads. *)
Record tm := {
  tm_year : Z;
  tm_mon : Z;
  tm_mday : Z;
  tm_hour : Z;
  tm_min : Z;
  tm_sec : Z
}.

(** What the host answers during one call into the plugin. *)
Record Env := {
  (** the buffer [asp_disp_get_pax_buf] stores, [None] for null *)
  disp_pax_buf : option pax_buf_t;
  (** [localtime_r(time(NULL))] *)
  local_time : tm;
  (** whether [fopen(path, "wb")] succeeds *)
  fopen_ok : string -> bool;
  (** the value [asp_plugin_input_hook_register] returns *)
  hook_register_result : Z
}.

Inductive log_level := LOG_INFO | LOG_ERROR.

Record log_entry := {
  level : log_level;
  tag : string;
  message : string
}.

(** Calls recorded for the proofs; they do not influence execution. *)
Inductive call :=
| CallSaveScreenshot
| CallFopen (path : string)
| CallRegister (result : Z)
| CallUnregister (id : Z).

Record State := {
  (** statics of main.c *)
  plugin_ctx : option Z;
  hook_id : Z;
  logo_key_held : bool;
  (** the host's side *)
  fs : gmap string (list byte);
  log : list log_entry;
  hooks : list Z;
  (** ghost *)
  calls : list call
}.

(** Initial values of the statics, over any host state. *)
Definition initial_state (files : gmap string (list byte)) : State :=
  {| plugin_ctx := None; hook_id := -1; logo_key_held := false;
     fs := files; log := []; hooks := []; calls := [] |}.

(** ** A state monad *)

Definition M (A : Type) : Type := State -> A * State.

Definition ret {A} (a : A) : M A := fun s => (a, s).

Definition bind {A B} (m : M A) (k : A -> M B) : M B :=
  fun s => let (a, s') := m s in k a s'.

Notation "'let*' x ':=' m 'in' k" := (bind m (fun x => k))
  (at level 10, x name, m at level 100, k at level 200, only parsing).
Notation "m ';;' k" := (bind m (fun _ => k))
  (at level 100, k at level 200, right associativity, only parsing).

Definition set_plugin_ctx (c : option Z) : M unit := fun s =>
  (tt, {| plugin_ctx := c; hook_id := hook_id s;
          logo_key_held := logo_key_held s; fs := fs s; log := log s;
          hooks := hooks s; calls := calls s |}).

Definition set_hook_id (h : Z) : M unit := fun s =>
  (tt, {| plugin_ctx := plugin_ctx s; hook_id := h;
          logo_key_held := logo_key_held s; fs := fs s; log := log s;
          hooks := hooks s; calls := calls s |}).

Definition set_logo_key_held (b : bool) : M unit := fun s =>
  (tt, {| plugin_ctx := plugin_ctx s; hook_id := hook_id s;
          logo_key_held := b; fs := fs s; log := log s;
          hooks := hooks s; calls := calls s |}).

Definition set_fs (f : gmap string (list byte)) : M unit := fun s =>
  (tt, {| plugin_ctx := plugin_ctx s; hook_id := hook_id s;
          logo_key_held := logo_key_held s; fs := f; log := log s;
          hooks := hooks s; calls := calls s |}).

Definition set_hooks (h : list Z) : M unit := fun s =>
  (tt, {| plugin_ctx := plugin_ctx s; hook_id := hook_id s;
          logo_key_held := logo_key_held s; fs := fs s; log := log s;
          hooks := h; calls := calls s |}).

Definition record_call (c : call) : M unit := fun s =>
  (tt, {| plugin_ctx := plugin_ctx s; hook_id := hook_id s;
          logo_key_held := logo_key_held s; fs := fs s; log := log s;
          hooks := hooks s; calls := calls s ++ [c] |}).

Definition emit_log (l : log_level) (t msg : string) : M unit := fun s =>
  (tt, {| plugin_ctx := plugin_ctx s; hook_id := hook_id s;
          logo_key_held := logo_key_held s; fs := fs s;
          log := log s ++ [{| level := l; tag := t; message := msg |}];
          hooks := hooks s; calls := calls s |}).

Definition get {A} (f : State -> A) : M A := fun s => (f s, s).

(** ** Host services *)

Definition asp_log_info (t : string) (fmt : list directive)
    (args : list arg) : M unit :=
  emit_log LOG_INFO t (format fmt args).

Definition asp_log_error (t : string) (fmt : list directive)
    (args : list arg) : M unit :=
  emit_log LOG_ERROR t (format fmt args).

(** A [FILE*] open for writing, identified by its path. *)
Definition FILE := string.

(** [fopen(path, "wb")]: on success the file exists and is empty. *)
Definition fopen (env : Env) (path : string) : M (option FILE) :=
  record_call (CallFopen path) ;;
  if fopen_ok env path then
    let* files := get fs in
    set_fs (<[path := []]> files) ;;
    ret (Some path)
  else ret None.

Definition fwrite_bytes (bs : list byte) (file : FILE) : M unit :=
  let* files := get fs in
  set_fs (<[file := default [] (files !! file) ++ bs]> files).

Definition fputc (c : byte) (file : FILE) : M unit :=
  fwrite_bytes [c] file.

Definition fprintf (file : FILE) (fmt : list directive) (args : list arg)
  : M unit :=
  fwrite_bytes (list_byte_of_string (format fmt args)) file.

Definition fclose (file : FILE) : M unit := ret tt.

(** Modelled from the spec: the host's hook registry, which is not part
    of the plugin.  A negative handle signals that registration failed
    and nothing was registered; otherwise the hook is registered under
    the returned handle until it is unregistered. *)
Definition asp_plugin_input_hook_register (env : Env) : M Z :=
  let r := hook_register_result env in
  record_call (CallRegister r) ;;
  (if r <? 0 then ret tt
   else let* hs := get hooks in set_hooks (r :: hs)) ;;
  ret r.

Fixpoint remove_first (id : Z) (hs : list Z) : list Z :=
  match hs with
  | [] => []
  | h :: hs' => if h =? id then hs' else h :: remove_first id hs'
  end.

Definition asp_plugin_input_hook_unregister (id : Z) : M unit :=
  record_call (CallUnregister id) ;;
  let* hs := get hooks in
  set_hooks (remove_first id hs).

(** ** save_screenshot *)

(** [for (int i = 0; i < n; i++) body(i)], entered with [i] at its
    current value.  The loop runs at most [n] times, so [Z.to_nat n]
    units of fuel never run out before the test fails. *)
Fixpoint for_int (fuel : nat) (i n : Z) (body : Z -> M unit) : M unit :=
  match fuel with
  | O => ret tt
  | S fuel' =>
      if i <? n then body i ;; for_int fuel' (wrap_int (i + 1)) n body
      else ret tt
  end.

(** [p[idx]] for a buffer of [length p] bytes.  Reading outside the
    buffer is undefined in C; the embedding answers a zero byte there. *)
Definition byte_at (p : list byte) (idx : Z) : byte :=
  if idx <? 0 then x00 else nth (Z.to_nat idx) p x00.

(** Where [save_screenshot] returned (the C function returns [void];
    the tag names the [return] that was taken). *)
Inductive capture_result :=
| Saved
| SurfaceUnavailable
| PixelBufferUnavailable
| DestinationOpenFailure.

Definition filename_fmt : list directive :=
  [Lit "/sd/screenshot-"; Fmt_0d 4; Fmt_0d 2; Fmt_0d 2; Fmt_0d 2;
   Fmt_0d 2; Fmt_0d 2; Lit ".ppm"].

(** The [snprintf] of lines 51-54. *)
Definition screenshot_filename (tm_info : tm) : string :=
  snprintf 64 filename_fmt
    [Int (wrap_int (tm_year tm_info + 1900));
     Int (wrap_int (tm_mon tm_info + 1));
     Int (tm_mday tm_info); Int (tm_hour tm_info);
     Int (tm_min tm_info); Int (tm_sec tm_info)].

Definition ppm_header_fmt : list directive :=
  [Lit "P6"; Lit nl; Fmt_d; Lit " "; Fmt_d; Lit nl; Lit "255"; Lit nl].

(** The body of the inner loop, lines 72-79.  Overflow of the [int]
    index and a read outside the buffer are undefined in C; the theorems
    that state file contents keep every index inside the buffer and
    within [int]. *)
Definition write_pixel (p : list byte) (w y x : Z) (file : FILE) : M unit :=
  let idx := wrap_int (wrap_int (wrap_int (y * w) + x) * 3) in
  let b := byte_at p (wrap_int (idx + 0)) in
  let g := byte_at p (wrap_int (idx + 1)) in
  let r := byte_at p (wrap_int (idx + 2)) in
  fputc r file ;;
  fputc g file ;;
  fputc b file.

Definition save_screenshot (env : Env) : M capture_result :=
  record_call CallSaveScreenshot ;;
  match disp_pax_buf env with
  | None =>
      asp_log_error "screenshot" [Lit "Failed to get PAX buffer"] [] ;;
      ret SurfaceUnavailable
  | Some buf =>
      let w := width buf in
      let h := height buf in
      match pixels buf with
      | None =>
          asp_log_error "screenshot" [Lit "Failed to get pixel data"] [] ;;
          ret PixelBufferUnavailable
      | Some p =>
          let filename := screenshot_filename (local_time env) in
          asp_log_info "screenshot"
            [Lit "Saving screenshot to "; Fmt_s; Lit " ("; Fmt_d; Lit "x";
             Fmt_d; Lit ")"] [Str filename; Int w; Int h] ;;
          let* file := fopen env filename in
          match file with
          | None =>
              asp_log_error "screenshot"
                [Lit "Failed to open file "; Fmt_s] [Str filename] ;;
              ret DestinationOpenFailure
          | Some file =>
              fprintf file ppm_header_fmt [Int w; Int h] ;;
              for_int (Z.to_nat h) 0 h (fun y =>
                for_int (Z.to_nat w) 0 w (fun x =>
                  write_pixel p w y x file)) ;;
              fclose file ;;
              asp_log_info "screenshot"
                [Lit "Screenshot saved: "; Fmt_s] [Str filename] ;;
              ret Saved
          end
      end
  end.

(** ** input_hook_callback *)

Definition input_hook_callback (env : Env) (event : plugin_input_event_t)
  : M bool :=
  match type event with
  | PLUGIN_INPUT_EVENT_TYPE_OTHER _ => ret false
  | PLUGIN_INPUT_EVENT_TYPE_SCANCODE =>
      let scancode := to_uint32 (key event) in
      if (scancode =? BSP_INPUT_SCANCODE_LEFTMETA)
         || (scancode =? BSP_INPUT_SCANCODE_RIGHTMETA)
      then set_logo_key_held true ;; ret false
      else if (scancode =? BSP_INPUT_SCANCODE_LEFTMETA_REL)
              || (scancode =? BSP_INPUT_SCANCODE_RIGHTMETA_REL)
      then set_logo_key_held false ;; ret false
      else
        let* held := get logo_key_held in
        if (scancode =? BSP_INPUT_SCANCODE_P) && held
        then
          asp_log_info "screenshot"
            [Lit "LOGO+P detected, taking screenshot..."] [] ;;
          save_screenshot env ;;
          set_logo_key_held false ;;
          ret true
        else ret false
  end.

(** The host delivers the events one at a time, in order; each call sees
    the host as it is at that moment. *)
Fixpoint deliver (evs : list (Env * plugin_input_event_t)) : M (list bool) :=
  match evs with
  | [] => ret []
  | (env, ev) :: evs' =>
      let* r := input_hook_callback env ev in
      let* rs := deliver evs' in
      ret (r :: rs)
  end.

(** ** plugin_init and plugin_cleanup *)

Definition plugin_init (env : Env) (ctx : Z) : M Z :=
  asp_log_info "screenshot" [Lit "Screenshot plugin initializing..."] [] ;;
  set_plugin_ctx (Some ctx) ;;
  let* id := asp_plugin_input_hook_register env in
  set_hook_id id ;;
  if id <? 0 then
    asp_log_error "screenshot" [Lit "Failed to register input hook"] [] ;;
    ret (-1)
  else
    asp_log_info "screenshot"
      [Lit "Screenshot plugin initialized, hook_id="; Fmt_d] [Int id] ;;
    ret 0.

Definition plugin_cleanup (ctx : Z) : M unit :=
  let* id := get hook_id in
  (if 0 <=? id then
     asp_plugin_input_hook_unregister id ;;
     set_hook_id (-1)
   else ret tt) ;;
  set_plugin_ctx None ;;
  asp_log_info "screenshot" [Lit "Screenshot plugin cleaned up"] [].

(** ** Vocabulary of the specification *)

Definition is_scancode_event (e : plugin_input_event_t) : bool :=
  match type e with
  | PLUGIN_INPUT_EVENT_TYPE_SCANCODE => true
  | PLUGIN_INPUT_EVENT_TYPE_OTHER _ => false
  end.

Definition scancode_of (e : plugin_input_event_t) : Z := to_uint32 (key e).

(** modifier-press: a scancode event carrying the press code of the left
    or of the right LOGO key *)
Definition is_modifier_press (e : plugin_input_event_t) : bool :=
  is_scancode_event e
  && ((scancode_of e =? BSP_INPUT_SCANCODE_LEFTMETA)
      || (scancode_of e =? BSP_INPUT_SCANCODE_RIGHTMETA)).

(** modifier-release: a scancode event carrying either release code *)
Definition is_modifier_release (e : plugin_input_event_t) : bool :=
  is_scancode_event e
  && ((scancode_of e =? BSP_INPUT_SCANCODE_LEFTMETA_REL)
      || (scancode_of e =? BSP_INPUT_SCANCODE_RIGHTMETA_REL)).

(** trigger-press: a scancode event carrying the press code of [P] *)
Definition is_trigger_press (e : plugin_input_event_t) : bool :=
  is_scancode_event e && (scancode_of e =? BSP_INPUT_SCANCODE_P).

Definition is_capture_call (c : call) : bool :=
  match c with CallSaveScreenshot => true | _ => false end.

Definition is_fopen_call (c : call) : bool :=
  match c with CallFopen _ => true | _ => false end.

Definition is_register_ok_call (c : call) : bool :=
  match c with CallRegister r => 0 <=? r | _ => false end.

Definition is_unregister_call (c : call) : bool :=
  match c with CallUnregister _ => true | _ => false end.

(** Any call of the register function, whatever it answered. *)
Definition is_register_call (c : call) : bool :=
  match c with CallRegister _ => true | _ => false end.

Definition count_calls (p : call -> bool) (s : State) : nat :=
  length (List.filter p (calls s)).

(** Number of times the capture operation has been invoked. *)
Definition captures (s : State) : nat := count_calls is_capture_call s.

(** The state [s] with the contents of one file replaced. *)
Definition with_file (s : State) (file : FILE) (content : list byte) : State :=
  {| plugin_ctx := plugin_ctx s; hook_id := hook_id s;
     logo_key_held := logo_key_held s;
     fs := <[file := content]> (fs s); log := log s;
     hooks := hooks s; calls := calls s |}.

(** The bytes a counting loop writes when its body writes [f i]. *)
Fixpoint loop_bytes (fuel : nat) (i n : Z) (f : Z -> list byte) : list byte :=
  match fuel with
  | O => []
  | S fuel' =>
      if i <? n then f i ++ loop_bytes fuel' (wrap_int (i + 1)) n f else []
  end.

Definition pixel_bytes (p : list byte) (w y x : Z) : list byte :=
  let idx := wrap_int (wrap_int (wrap_int (y * w) + x) * 3) in
  [byte_at p (wrap_int (idx + 2)); byte_at p (wrap_int (idx + 1));
   byte_at p (wrap_int (idx + 0))].

Definition payload_bytes (p : list byte) (w h : Z) : list byte :=
  loop_bytes (Z.to_nat h) 0 h (fun y =>
    loop_bytes (Z.to_nat w) 0 w (fun x => pixel_bytes p w y x)).

Definition header_bytes (w h : Z) : list byte :=
  list_byte_of_string (format ppm_header_fmt [Int w; Int h]).

(** The return point of [save_screenshot], read off the host's answers. *)
Definition capture_outcome (env : Env) : capture_result :=
  match disp_pax_buf env with
  | None => SurfaceUnavailable
  | Some buf =>
      match pixels buf with
      | None => PixelBufferUnavailable
      | Some _ =>
          if fopen_ok env (screenshot_filename (local_time env))
          then Saved else DestinationOpenFailure
      end
  end.

(** A reader of the PPM header: magic, width, height and maximum value
    as decimal numbers, with the separators the format prescribes. *)
Record ppm_header := {
  ppm_magic : string;
  ppm_width : Z;
  ppm_height : Z;
  ppm_maxval : Z
}.

Definition is_digit (b : byte) : bool :=
  let n := Byte.to_N b in ((48 <=? n) && (n <=? 57))%N.

Definition digit_value (b : byte) : Z := Z.of_N (Byte.to_N b) - 48.

Fixpoint read_digits (bs : list byte) (acc : Z) : Z * list byte :=
  match bs with
  | b :: bs' =>
      if is_digit b then read_digits bs' (10 * acc + digit_value b)
      else (acc, bs)
  | [] => (acc, [])
  end.

Definition read_decimal (bs : list byte) : option (Z * list byte) :=
  match bs with
  | b :: _ => if is_digit b then Some (read_digits bs 0) else None
  | [] => None
  end.

Fixpoint expect (lit bs : list byte) : option (list byte) :=
  match lit, bs with
  | [], _ => Some bs
  | c :: lit', b :: bs' => if Byte.eqb c b then expect lit' bs' else None
  | _ :: _, [] => None
  end.

Definition decode_ppm_header (bs : list byte)
  : option (ppm_header * list byte) :=
  match expect (list_byte_of_string ("P6" +:+ nl)) bs with
  | None => None
  | Some r1 =>
  match read_decimal r1 with
  | None => None
  | Some (w, r2) =>
  match expect (list_byte_of_string " ") r2 with
  | None => None
  | Some r3 =>
  match read_decimal r3 with
  | None => None
  | Some (h, r4) =>
  match expect (list_byte_of_string nl) r4 with
  | None => None
  | Some r5 =>
  match read_decimal r5 with
  | None => None
  | Some (m, r6) =>
  match expect (list_byte_of_string nl) r6 with
  | None => None
  | Some payload =>
      Some ({| ppm_magic := "P6"; ppm_width := w; ppm_height := h;
               ppm_maxval := m |}, payload)
  end end end end end end end.

(** The path template of the specification: the fixed root and prefix,
    a four-digit year, five two-digit fields and the suffix. *)
Definition two_digits (n : Z) : string :=
  String (digit_char (n / 10)) (String (digit_char (n mod 10)) EmptyString).

Definition four_digits (n : Z) : string :=
  two_digits (n / 100) +:+ two_digits (n mod 100).

Definition path_root_prefix : string := "/sd/screenshot-".
Definition path_suffix : string := ".ppm".

Definition path_template (year month day hour minute second : Z) : string :=
  path_root_prefix +:+ four_digits year +:+ two_digits month
  +:+ two_digits day +:+ two_digits hour +:+ two_digits minute
  +:+ two_digits second +:+ path_suffix.

(** A path has the shape of the template when some four characters
    stand in the year field. *)
Definition fits_template (t : tm) (path : string) : Prop :=
  exists year_field : string,
    String.length year_field = 4%nat /\
    path = path_root_prefix +:+ year_field +:+ two_digits (tm_mon t + 1)
           +:+ two_digits (tm_mday t) +:+ two_digits (tm_hour t)
           +:+ two_digits (tm_min t) +:+ two_digits (tm_sec t)
           +:+ path_suffix.

(** A broken-down calendar time as [localtime_r] produces it. *)
Definition calendar_time (t : tm) : Prop :=
  0 <= tm_mon t <= 11 /\ 1 <= tm_mday t <= 31 /\ 0 <= tm_hour t <= 23 /\
  0 <= tm_min t <= 59 /\ 0 <= tm_sec t <= 60.

(** No trigger-press is preceded by a modifier-press without a
    modifier-release between the two. *)
Definition chord_free (evs : list plugin_input_event_t) : Prop :=
  forall pre m mid t post,
    evs = pre ++ m :: mid ++ t :: post ->
    is_modifier_press m = true ->
    is_trigger_press t = true ->
    exists r, In r mid /\ is_modifier_release r = true.

(** The handle is nonnegative exactly when a hook is registered, and
    then it is the handle of that hook. *)
Definition hook_inv (s : State) : Prop :=
  hooks s = if 0 <=? hook_id s then [hook_id s] else [].

(** [hook_inv], and no more unregistrations than successful
    registrations that are no longer held. *)
Definition lifecycle_inv (s : State) : Prop :=
  hook_inv s /\
  (count_calls is_unregister_call s
   + (if (0 <=? hook_id s)%Z then 1 else 0)
   <= count_calls is_register_ok_call s)%nat.

(** The calls made between two states. *)
Definition calls_since (s s' : State) (cs : list call) : Prop :=
  calls s' = calls s ++ cs.

(** ** States reached by the plugin *)

Definition saved_state (env : Env) (s : State) (w h : Z) (p : list byte) : State :=
  let path := screenshot_filename (local_time env) in
  {| plugin_ctx := plugin_ctx s; hook_id := hook_id s;
     logo_key_held := logo_key_held s;
     fs := <[path := header_bytes w h ++ payload_bytes p w h]> (fs s);
     log := log s ++
       [{| level := LOG_INFO; tag := "screenshot";
           message := format [Lit "Saving screenshot to "; Fmt_s; Lit " ("; Fmt_d; Lit "x";
             Fmt_d; Lit ")"] [Str path; Int w; Int h] |};
        {| level := LOG_INFO; tag := "screenshot";
           message := format [Lit "Screenshot saved: "; Fmt_s] [Str path] |}];
     hooks := hooks s;
     calls := calls s ++ [CallSaveScreenshot; CallFopen path] |}.

Definition logged (s : State) (entries : list log_entry) (cs : list call) : State :=
  {| plugin_ctx := plugin_ctx s; hook_id := hook_id s;
     logo_key_held := logo_key_held s; fs := fs s;
     log := log s ++ entries; hooks := hooks s; calls := calls s ++ cs |}.

Definition error_entry (msg : string) : log_entry :=
  {| level := LOG_ERROR; tag := "screenshot"; message := msg |}.

Definition info_entry (msg : string) : log_entry :=
  {| level := LOG_INFO; tag := "screenshot"; message := msg |}.

Definition with_held (b : bool) (s : State) : State :=
  snd (set_logo_key_held b s).

Definition announce : M unit :=
  asp_log_info "screenshot" [Lit "LOGO+P detected, taking screenshot..."] [].

(** The state after a chord fired in [s]. *)
Definition fired (env : Env) (s : State) : State :=
  with_held false (snd (save_screenshot env (snd (announce s)))).

(** While the modifier is held: every trigger-press comes after a
    modifier-release. *)
Definition released_before_trigger (evs : list plugin_input_event_t) : Prop :=
  forall mid t post,
    evs = mid ++ t :: post ->
    is_trigger_press t = true ->
    exists r, In r mid /\ is_modifier_release r = true.

(** A decision procedure for [chord_free]; [armed] tells whether a
    modifier-press has been seen with no modifier-release since. *)
Fixpoint chord_free_from (armed : bool) (evs : list plugin_input_event_t)
  : bool :=
  match evs with
  | [] => true
  | e :: evs' =>
      if is_modifier_press e then chord_free_from true evs'
      else if is_modifier_release e then chord_free_from false evs'
      else if is_trigger_press e then negb armed && chord_free_from armed evs'
      else chord_free_from armed evs'
  end.

Definition chord_freeb (evs : list plugin_input_event_t) : bool :=
  chord_free_from false evs.

Definition swapped_pixel (p : list byte) (i : nat) : list byte :=
  [byte_at p (3 * Z.of_nat i + 2); byte_at p (3 * Z.of_nat i + 1);
   byte_at p (3 * Z.of_nat i)].

(** ** Sample inputs *)

Definition scancode_event (code : Z) : plugin_input_event_t :=
  {| type := PLUGIN_INPUT_EVENT_TYPE_SCANCODE; key := code |}.

Definition left_logo_press := scancode_event BSP_INPUT_SCANCODE_LEFTMETA.
Definition right_logo_press := scancode_event BSP_INPUT_SCANCODE_RIGHTMETA.
Definition left_logo_release := scancode_event BSP_INPUT_SCANCODE_LEFTMETA_REL.
Definition p_press := scancode_event BSP_INPUT_SCANCODE_P.
Definition a_press := scancode_event 0x1e.

(** A navigation event whose key field happens to equal a LOGO code. *)
Definition navigation_event : plugin_input_event_t :=
  {| type := PLUGIN_INPUT_EVENT_TYPE_OTHER 1;
     key := BSP_INPUT_SCANCODE_LEFTMETA |}.

Definition clock_2024_03_05 : tm :=
  {| tm_year := 124; tm_mon := 2; tm_mday := 5;
     tm_hour := 9; tm_min := 7; tm_sec := 2 |}.

Definition clock_year_10000 : tm :=
  {| tm_year := 8100; tm_mon := 2; tm_mday := 5;
     tm_hour := 9; tm_min := 7; tm_sec := 2 |}.

(** A 3x2 framebuffer, bytes numbered 1 to 18. *)
Definition sample_pixels : list byte :=
  [x01; x02; x03; x04; x05; x06; x07; x08; x09;
   x0a; x0b; x0c; x0d; x0e; x0f; x10; x11; x12].

Definition sample_buf : pax_buf_t :=
  {| width := 3; height := 2; pixels := Some sample_pixels |}.

Definition env_ready : Env :=
  {| disp_pax_buf := Some sample_buf; local_time := clock_2024_03_05;
     fopen_ok := fun _ => true; hook_register_result := 3 |}.

Definition env_no_surface : Env :=
  {| disp_pax_buf := None; local_time := clock_2024_03_05;
     fopen_ok := fun _ => true; hook_register_result := 3 |}.

Definition env_no_pixels : Env :=
  {| disp_pax_buf := Some {| width := 3; height := 2; pixels := None |};
     local_time := clock_2024_03_05;
     fopen_ok := fun _ => true; hook_register_result := 3 |}.

Definition env_card_missing : Env :=
  {| disp_pax_buf := Some sample_buf; local_time := clock_2024_03_05;
     fopen_ok := fun _ => false; hook_register_result := -1 |}.

Definition state0 : State := initial_state ∅.

Definition state_held : State := with_held true state0.

(** The modifier is held and a stale file sits at the sample path. *)
Definition state_stale : State :=
  with_file state_held "/sd/screenshot-20240305090702.ppm" [xff; xff].

(** Another host showing the same frame at the same time. *)
Definition env_ready_again : Env :=
  {| disp_pax_buf := Some sample_buf; local_time := clock_2024_03_05;
     fopen_ok := fun path => String.prefix "/sd/" path;
     hook_register_result := 9 |}.

(** ** Runs of the plugin *)

(** One call of the host into the plugin.  The host initialises a plugin
    only while it holds no hook. *)
Inductive host_call : State -> State -> Prop :=
| call_init env ctx s :
    hook_id s < 0 -> host_call s (snd (plugin_init env ctx s))
| call_cleanup ctx s :
    host_call s (snd (plugin_cleanup ctx s))
| call_input env ev s :
    host_call s (snd (input_hook_callback env ev s)).

Inductive reachable : State -> Prop :=
| reachable_initial files : reachable (initial_state files)
| reachable_call s s' : reachable s -> host_call s s' -> reachable s'.

(** ** Vocabulary for the further properties *)

(** Number of events reported handled. *)
Definition count_handled (rs : list bool) : nat :=
  length (List.filter (fun r : bool => r) rs).

(** The detector as a two-state machine: the answer to one event and
    the flag afterwards, from the flag before. *)
Definition chord_step (held : bool) (e : plugin_input_event_t)
  : bool * bool :=
  if is_modifier_press e then (false, true)
  else if is_modifier_release e then (false, false)
  else if is_trigger_press e && held then (true, false)
  else (false, held).

Fixpoint chord_run (held : bool) (evs : list plugin_input_event_t)
  : list bool * bool :=
  match evs with
  | [] => ([], held)
  | e :: evs' =>
      let (r, held') := chord_step held e in
      let (rs, final) := chord_run held' evs' in
      (r :: rs, final)
  end.

(** One chord: a modifier-press and a trigger-press, each with the host
    as it is when the event arrives. *)
Definition chord : Type :=
  (Env * plugin_input_event_t) * (Env * plugin_input_event_t).

Definition is_chord (c : chord) : Prop :=
  is_modifier_press (snd (fst c)) = true /\
  is_trigger_press (snd (snd c)) = true.

Definition chord_events (cs : list chord)
  : list (Env * plugin_input_event_t) :=
  flat_map (fun c : chord => [fst c; snd c]) cs.

Definition is_error_entry (e : log_entry) : bool :=
  match level e with LOG_ERROR => true | LOG_INFO => false end.

(** Number of error-level lines in the log. *)
Definition errors_logged (s : State) : nat :=
  length (List.filter is_error_entry (log s)).

(** The path as [snprintf] formats it when nothing is cut off. *)
Definition untruncated_path (t : tm) : string :=
  path_root_prefix +:+ fmt_0d 4 (tm_year t + 1900)
  +:+ two_digits (tm_mon t + 1) +:+ two_digits (tm_mday t)
  +:+ two_digits (tm_hour t) +:+ two_digits (tm_min t)
  +:+ two_digits (tm_sec t) +:+ path_suffix.

Definition right_logo_release :=
  scancode_event BSP_INPUT_SCANCODE_RIGHTMETA_REL.

(** The sample frame followed by bytes the encoder has no use for. *)
Definition sample_buf_padded : pax_buf_t :=
  {| width := 3; height := 2;
     pixels := Some (sample_pixels ++ [xaa; xbb; xcc; xdd]) |}.

Definition env_padded : Env :=
  {| disp_pax_buf := Some sample_buf_padded; local_time := clock_2024_03_05;
     fopen_ok := fun _ => true; hook_register_result := 3 |}.

(** A surface of height zero. *)
Definition env_flat : Env :=
  {| disp_pax_buf := Some {| width := 3; height := 0; pixels := Some [] |};
     local_time := clock_2024_03_05;
     fopen_ok := fun _ => true; hook_register_result := 3 |}.

(** One second later. *)
Definition clock_2024_03_05_later : tm :=
  {| tm_year := 124; tm_mon := 2; tm_mday := 5;
     tm_hour := 9; tm_min := 7; tm_sec := 3 |}.

(** A frame of one red pixel (stored blue, green, red). *)
Definition env_red : Env :=
  {| disp_pax_buf :=
       Some {| width := 1; height := 1; pixels := Some [x00; x00; xff] |};
     local_time := clock_2024_03_05;
     fopen_ok := fun _ => true; hook_register_result := 4 |}.

(** A surface showing the sample frame with its channels already
    swapped. *)
Definition env_swapped : Env :=
  {| disp_pax_buf :=
       Some {| width := 3; height := 2;
               pixels := Some (payload_bytes sample_pixels 3 2) |};
     local_time := clock_2024_03_05_later;
     fopen_ok := fun _ => true; hook_register_result := 5 |}.

(** * Proofs *)

(** ** Integers and formatting *)

Lemma wrap_int_small z : - 2 ^ 31 <= z < 2 ^ 31 -> wrap_int z = z.
Proof.
  intros H. unfold wrap_int. rewrite Z.mod_small; lia.
Qed.

Lemma append_length (s1 s2 : string) :
  String.length (s1 +:+ s2) = (String.length s1 + String.length s2)%nat.
Proof.
  induction s1 as [|c s1 IH]; [reflexivity|].
  change (String c s1 +:+ s2) with (String c (s1 +:+ s2)).
  cbn [String.length]. by rewrite IH.
Qed.

(** More fuel than the number of binary digits changes nothing: the
    digit loop stops by its own test. *)
Lemma digits_aux_fuel (f : nat) :
  forall n acc (f' : nat),
    (1 <= f)%nat -> (f <= f')%nat -> 0 <= n < 2 ^ Z.of_nat f ->
    digits_aux f' n acc = digits_aux f n acc.
Proof.
  induction f as [|f IH]; intros n acc f' H1 Hle Hn; [lia|].
  destruct f' as [|f']; [lia|]. cbn [digits_aux].
  destruct (Z.ltb_spec n 10) as [Hlt|Hge]; [reflexivity|].
  assert (Hpow : 2 ^ Z.of_nat (S f) = 2 * 2 ^ Z.of_nat f)
    by (rewrite Nat2Z.inj_succ, Z.pow_succ_r; lia).
  assert (Hf : (1 <= f)%nat).
  { destruct f; [cbn in Hpow; lia | lia]. }
  apply IH; [exact Hf | lia |].
  split; [apply Z.div_pos; lia|].
  apply Z.div_lt_upper_bound; lia.
Qed.

Lemma digits_fuel (f : nat) n :
  (1 <= f)%nat -> 0 <= n < 2 ^ Z.of_nat f ->
  digits n = digits_aux f n EmptyString.
Proof.
  intros Hf Hn. unfold digits.
  assert (Hlog : 0 <= Z.log2 n) by apply Z.log2_nonneg.
  assert (Hfuel : 0 <= n < 2 ^ Z.of_nat (S (Z.to_nat (Z.log2 n)))).
  { rewrite Nat2Z.inj_succ, Z2Nat.id by exact Hlog.
    destruct (Z.eq_dec n 0) as [->|Hne]; [cbn; lia|].
    split; [lia|]. apply Z.log2_spec. lia. }
  destruct (Nat.le_gt_cases (S (Z.to_nat (Z.log2 n))) f) as [Hle|Hgt].
  - symmetry. apply digits_aux_fuel; [lia | exact Hle | exact Hfuel].
  - apply digits_aux_fuel; [exact Hf | lia | exact Hn].
Qed.

Lemma digit_char_eq a b : a = b -> digit_char a = digit_char b.
Proof. by intros ->. Qed.

Ltac digit_arith :=
  cbv [String.append];
  repeat match goal with
    | |- "0"%char = digit_char _ => change "0"%char with (digit_char 0)
    | |- String _ _ = String _ _ => f_equal
    | |- digit_char _ = digit_char _ => apply digit_char_eq
    end;
  try reflexivity; try (Z.div_mod_to_equations; lia).

Lemma fmt_0d_two n : 0 <= n <= 99 -> fmt_0d 2 n = two_digits n.
Proof.
  intros Hn. unfold fmt_0d, two_digits.
  assert (Hneg : (n <? 0) = false) by (apply Z.ltb_ge; lia).
  rewrite Hneg, Z.abs_eq by lia.
  rewrite (digits_fuel 7) by (cbn; lia).
  cbn [digits_aux].
  destruct (Z.ltb_spec n 10) as [H1|H1].
  - cbn. digit_arith.
  - destruct (Z.ltb_spec (n / 10) 10) as [H2|H2];
      [| exfalso; Z.div_mod_to_equations; lia].
    cbn. digit_arith.
Qed.

Lemma fmt_0d_four n : 0 <= n <= 9999 -> fmt_0d 4 n = four_digits n.
Proof.
  intros Hn. unfold fmt_0d, four_digits, two_digits.
  assert (Hneg : (n <? 0) = false) by (apply Z.ltb_ge; lia).
  rewrite Hneg, Z.abs_eq by lia.
  rewrite (digits_fuel 14) by (cbn; lia).
  cbn [digits_aux].
  destruct (Z.ltb_spec n 10) as [H1|H1]; [cbn; digit_arith|].
  destruct (Z.ltb_spec (n / 10) 10) as [H2|H2]; [cbn; digit_arith|].
  destruct (Z.ltb_spec (n / 10 / 10) 10) as [H3|H3]; [cbn; digit_arith|].
  destruct (Z.ltb_spec (n / 10 / 10 / 10) 10) as [H4|H4];
    [| exfalso; Z.div_mod_to_equations; lia].
  cbn. digit_arith.
Qed.

Example fmt_0d_pads : fmt_0d 2 7 = "07".
Proof. reflexivity. Qed.

Example fmt_0d_negative : fmt_0d 4 (-5) = "-005".
Proof. reflexivity. Qed.

Example fmt_d_int_min : fmt_d (-2147483648) = "-2147483648".
Proof. reflexivity. Qed.

Lemma list_byte_of_string_cons c s :
  list_byte_of_string (String c s) = byte_of_ascii c :: list_byte_of_string s.
Proof. reflexivity. Qed.

Lemma list_byte_of_string_app s1 s2 :
  list_byte_of_string (s1 +:+ s2)
  = list_byte_of_string s1 ++ list_byte_of_string s2.
Proof.
  induction s1 as [|c s1 IH]; [reflexivity|].
  change (String c s1 +:+ s2) with (String c (s1 +:+ s2)).
  rewrite !list_byte_of_string_cons, IH. reflexivity.
Qed.

Lemma digit_char_byte d :
  0 <= d <= 9 ->
  is_digit (byte_of_ascii (digit_char d)) = true /\
  digit_value (byte_of_ascii (digit_char d)) = d.
Proof.
  intros Hd.
  assert (H : d = 0 \/ d = 1 \/ d = 2 \/ d = 3 \/ d = 4 \/
              d = 5 \/ d = 6 \/ d = 7 \/ d = 8 \/ d = 9) by lia.
  repeat (destruct H as [-> | H]; [split; reflexivity|]).
  subst d. split; reflexivity.
Qed.

(** Reading back the digits [digits_aux] produces. *)
Lemma read_digits_digits_aux (f : nat) :
  forall n acc,
    (1 <= f)%nat -> 0 <= n < 2 ^ Z.of_nat f ->
    exists c rest k,
      digits_aux f n acc = String c rest /\
      is_digit (byte_of_ascii c) = true /\
      forall tail a,
        read_digits (list_byte_of_string (String c rest) ++ tail) a
        = read_digits (list_byte_of_string acc ++ tail) (a * 10 ^ k + n) /\
        0 <= k.
Proof.
  induction f as [|f IH]; intros n acc Hf Hn; [lia|].
  cbn [digits_aux].
  assert (Hd : 0 <= n mod 10 <= 9) by (Z.div_mod_to_equations; lia).
  destruct (digit_char_byte _ Hd) as [Hdig Hval].
  destruct (Z.ltb_spec n 10) as [Hlt|Hge].
  - exists (digit_char (n mod 10)), acc, 1. split; [reflexivity|].
    split; [exact Hdig|]. intros tail a. split; [|lia].
    rewrite list_byte_of_string_cons. cbn [app read_digits].
    rewrite Hdig, Hval. rewrite Z.mod_small by lia. f_equal. lia.
  - assert (Hpow : 2 ^ Z.of_nat (S f) = 2 * 2 ^ Z.of_nat f)
      by (rewrite Nat2Z.inj_succ, Z.pow_succ_r; lia).
    assert (Hf' : (1 <= f)%nat).
    { destruct f; [cbn in Hpow; lia | lia]. }
    destruct (IH (n / 10) (String (digit_char (n mod 10)) acc) Hf')
      as (c & rest & k & Heq & Hc & Hread).
    { split; [apply Z.div_pos; lia|].
      apply Z.div_lt_upper_bound; lia. }
    exists c, rest, (k + 1). split; [exact Heq|]. split; [exact Hc|].
    intros tail a. destruct (Hread tail a) as [Hr Hk]. split; [|lia].
    rewrite Hr. rewrite list_byte_of_string_cons. cbn [app read_digits].
    rewrite Hdig, Hval. f_equal.
    rewrite Z.pow_add_r by lia. Z.div_mod_to_equations. nia.
Qed.

Lemma read_decimal_fmt_d n sep tail :
  0 <= n -> is_digit sep = false ->
  read_decimal (list_byte_of_string (fmt_d n) ++ sep :: tail)
  = Some (n, sep :: tail).
Proof.
  intros Hn Hsep. unfold fmt_d.
  assert (Hneg : (n <? 0) = false) by (apply Z.ltb_ge; lia).
  rewrite Hneg. unfold digits.
  destruct (read_digits_digits_aux (S (Z.to_nat (Z.log2 n))) n EmptyString)
    as (c & rest & k & Heq & Hc & Hread); [lia | |].
  { assert (Hlog : 0 <= Z.log2 n) by apply Z.log2_nonneg.
    rewrite Nat2Z.inj_succ, Z2Nat.id by exact Hlog.
    destruct (Z.eq_dec n 0) as [->|Hne]; [cbn; lia|].
    split; [lia|]. apply Z.log2_spec. lia. }
  rewrite Heq. destruct (Hread (sep :: tail) 0) as [Hr _].
  unfold read_decimal. rewrite list_byte_of_string_cons. cbn [app].
  rewrite Hc.
  change (byte_of_ascii c :: list_byte_of_string rest ++ sep :: tail)
    with (list_byte_of_string (String c rest) ++ sep :: tail).
  rewrite Hr.
  change (list_byte_of_string "") with (@nil byte). cbn [app read_digits].
  rewrite Hsep. replace (0 * 10 ^ k + n) with n by lia. reflexivity.
Qed.

Lemma decode_header_bytes w h payload :
  0 <= w -> 0 <= h ->
  decode_ppm_header (header_bytes w h ++ payload)
  = Some ({| ppm_magic := "P6"; ppm_width := w; ppm_height := h;
             ppm_maxval := 255 |}, payload).
Proof.
  intros Hw Hh. unfold header_bytes, ppm_header_fmt. cbn [format].
  rewrite !list_byte_of_string_app, <- !app_assoc.
  unfold decode_ppm_header.
  change (expect (list_byte_of_string ("P6" +:+ nl))
            (list_byte_of_string "P6" ++ list_byte_of_string nl ++ ?r))
    with (Some r).
  change (list_byte_of_string " " ++ ?r) with (" "%byte :: r).
  cbv beta iota.
  rewrite read_decimal_fmt_d by (exact Hw || reflexivity).
  change (expect (list_byte_of_string " ") (" "%byte :: ?r)) with (Some r).
  change (list_byte_of_string nl ++ ?r) with ("010"%byte :: r) at 1.
  cbv beta iota.
  rewrite read_decimal_fmt_d by (exact Hh || reflexivity).
  reflexivity.
Qed.

(** ** Lists of fixed-size blocks *)

Section FlatMap.
Context {A : Type}.

Lemma flat_map_seq_ext (f g : nat -> list A) len :
  forall start,
    (forall j, (start <= j < start + len)%nat -> f j = g j) ->
    flat_map f (seq start len) = flat_map g (seq start len).
Proof.
  induction len as [|len IH]; intros start H; [reflexivity|].
  cbn [seq flat_map]. rewrite (H start) by lia.
  rewrite (IH (S start)); [reflexivity|]. intros j Hj. apply H. lia.
Qed.

Lemma flat_map_seq_shift len :
  forall (g : nat -> list A) start,
    flat_map g (seq start len)
    = flat_map (fun x => g (start + x)%nat) (seq 0 len).
Proof.
  induction len as [|len IH]; intros g start; [reflexivity|].
  cbn [seq flat_map]. rewrite Nat.add_0_r. f_equal.
  rewrite (IH g (S start)), (IH (fun x => g (start + x)%nat) 1%nat).
  apply flat_map_seq_ext. intros j _. f_equal. lia.
Qed.

Lemma flat_map_rows (g : nat -> list A) (w h : nat) :
  flat_map (fun y => flat_map (fun x => g (y * w + x)%nat) (seq 0 w))
    (seq 0 h)
  = flat_map g (seq 0 (h * w)).
Proof.
  induction h as [|h IH]; [reflexivity|].
  rewrite seq_S, flat_map_app, IH. cbn [flat_map Nat.add].
  rewrite app_nil_r.
  replace (S h * w)%nat with (h * w + w)%nat by lia.
  rewrite seq_app, flat_map_app. f_equal.
  symmetry. apply flat_map_seq_shift.
Qed.

Lemma flat_map_blocks_length (g : nat -> list A) (b : nat) :
  (forall j, length (g j) = b) ->
  forall n, length (flat_map g (seq 0 n)) = (b * n)%nat.
Proof.
  intros Hb. induction n as [|n IH]; [cbn; lia|].
  rewrite seq_S, flat_map_app, length_app, IH. cbn [flat_map Nat.add].
  rewrite app_nil_r, Hb. lia.
Qed.

Lemma flat_map_blocks_lookup (g : nat -> list A) (b : nat) :
  (forall j, length (g j) = b) ->
  forall n i k, (i < n)%nat -> (k < b)%nat ->
    flat_map g (seq 0 n) !! (b * i + k)%nat = g i !! k.
Proof.
  intros Hb. induction n as [|n IH]; intros i k Hi Hk; [lia|].
  rewrite seq_S, flat_map_app. cbn [flat_map Nat.add]. rewrite app_nil_r.
  pose proof (flat_map_blocks_length g b Hb n) as Hlen.
  destruct (Nat.eq_dec i n) as [->|Hne].
  - rewrite lookup_app_r by lia. f_equal. lia.
  - rewrite lookup_app_l by nia. apply IH; lia.
Qed.
End FlatMap.

(** ** Files and loops *)

Lemma with_file_id (s : State) file c :
  fs s !! file = Some c -> with_file s file c = s.
Proof.
  intros H. destruct s as [pc hid held files lg hs cs]; unfold with_file; cbn in *.
  f_equal. by apply insert_id.
Qed.

Lemma with_file_twice (s : State) file a b :
  with_file (with_file s file a) file b = with_file s file b.
Proof. unfold with_file; cbn. f_equal. apply insert_insert_eq. Qed.

Lemma with_file_lookup (s : State) file a :
  fs (with_file s file a) !! file = Some a.
Proof. cbn. apply lookup_insert_eq. Qed.

Lemma fwrite_bytes_spec (s : State) file c bs :
  fs s !! file = Some c ->
  fwrite_bytes bs file s = (tt, with_file s file (c ++ bs)).
Proof.
  intros H. unfold fwrite_bytes, bind, get, set_fs, with_file. rewrite H. reflexivity.
Qed.

Lemma write_pixel_spec p w y x file (s : State) c :
  fs s !! file = Some c ->
  write_pixel p w y x file s = (tt, with_file s file (c ++ pixel_bytes p w y x)).
Proof.
  intros H. unfold write_pixel, fputc, bind.
  rewrite (fwrite_bytes_spec s file c) by exact H.
  rewrite (fwrite_bytes_spec _ file _ _ (with_file_lookup _ _ _)).
  rewrite (fwrite_bytes_spec _ file _ _ (with_file_lookup _ _ _)).
  rewrite !with_file_twice. unfold pixel_bytes.
  rewrite <- !app_assoc. reflexivity.
Qed.

Lemma for_int_writes (f : Z -> list byte) (body : Z -> M unit) file n :
  (forall j (s : State) c, fs s !! file = Some c ->
     body j s = (tt, with_file s file (c ++ f j))) ->
  forall fuel i (s : State) c, fs s !! file = Some c ->
    for_int fuel i n body s = (tt, with_file s file (c ++ loop_bytes fuel i n f)).
Proof.
  intros Hbody. induction fuel as [|fuel IH]; intros i s c Hc; cbn.
  - rewrite app_nil_r, with_file_id by exact Hc. reflexivity.
  - destruct (i <? n).
    + unfold bind. rewrite (Hbody i s c Hc).
      rewrite (IH _ _ _ (with_file_lookup _ _ _)).
      rewrite with_file_twice, <- app_assoc. reflexivity.
    + unfold ret. rewrite app_nil_r, with_file_id by exact Hc. reflexivity.
Qed.

(** A counting loop from [0] to a bound that is an [int] runs once for
    each index below the bound, in order. *)
Lemma loop_bytes_seq (f : Z -> list byte) n (k : nat) :
  forall i,
    0 <= i -> i + Z.of_nat k = n -> n <= INT_MAX ->
    loop_bytes k i n f
    = flat_map (fun j => f (Z.of_nat j)) (seq (Z.to_nat i) k).
Proof.
  unfold INT_MAX.
  induction k as [|k IH]; intros i Hi Hn Hmax; [reflexivity|].
  cbn [loop_bytes seq flat_map].
  assert (Hlt : (i <? n) = true) by (apply Z.ltb_lt; lia).
  rewrite Hlt, Z2Nat.id by exact Hi. f_equal.
  rewrite wrap_int_small by lia.
  rewrite IH by lia. f_equal. f_equal. lia.
Qed.

(** The loop of [for_int] ends by its own test: fuel beyond the number
    of iterations is never used. *)
Lemma for_int_fuel (body : Z -> M unit) n (extra : nat) :
  n <= INT_MAX ->
  forall (k : nat) i (s : State),
    0 <= i -> i + Z.of_nat k = n ->
    for_int (k + extra) i n body s = for_int k i n body s.
Proof.
  unfold INT_MAX. intros Hmax.
  induction k as [|k IH]; intros i s Hi Hn.
  - cbn [Nat.add for_int]. destruct extra as [|extra]; [reflexivity|].
    cbn [for_int].
    assert (Hge : (i <? n) = false) by (apply Z.ltb_ge; lia).
    rewrite Hge. reflexivity.
  - cbn [Nat.add for_int].
    destruct (i <? n); [|reflexivity].
    unfold bind. destruct (body i s) as [[] s1].
    rewrite wrap_int_small by lia. apply IH; lia.
Qed.

Lemma pixel_bytes_in_range p w h (y x : nat) :
  0 < w -> 0 < h -> w * h * 3 <= INT_MAX ->
  (y < Z.to_nat h)%nat -> (x < Z.to_nat w)%nat ->
  pixel_bytes p w (Z.of_nat y) (Z.of_nat x)
  = swapped_pixel p (y * Z.to_nat w + x).
Proof.
  unfold INT_MAX. intros Hw Hh Hmax Hy Hx.
  assert (Hy' : Z.of_nat y <= h - 1) by lia.
  assert (Hx' : Z.of_nat x <= w - 1) by lia.
  assert (Hyw : 0 <= Z.of_nat y * w) by (apply Z.mul_nonneg_nonneg; lia).
  assert (Hyw' : Z.of_nat y * w <= (h - 1) * w)
    by (apply Z.mul_le_mono_nonneg_r; lia).
  assert (Hbound : Z.of_nat y * w + Z.of_nat x < w * h) by lia.
  unfold pixel_bytes, swapped_pixel.
  rewrite (wrap_int_small (Z.of_nat y * w)) by lia.
  rewrite (wrap_int_small (Z.of_nat y * w + Z.of_nat x)) by lia.
  rewrite (wrap_int_small ((Z.of_nat y * w + Z.of_nat x) * 3)) by lia.
  rewrite !wrap_int_small by lia.
  replace (Z.of_nat (y * Z.to_nat w + x)) with (Z.of_nat y * w + Z.of_nat x)
    by (rewrite Nat2Z.inj_add, Nat2Z.inj_mul, Z2Nat.id; lia).
  repeat match goal with
    | |- _ :: _ = _ :: _ => f_equal
    | |- byte_at _ _ = byte_at _ _ => f_equal; lia
    end.
Qed.

Lemma payload_bytes_swapped p w h :
  0 < w -> 0 < h -> w * h * 3 <= INT_MAX ->
  payload_bytes p w h
  = flat_map (swapped_pixel p) (seq 0 (Z.to_nat (w * h))).
Proof.
  intros Hw Hh Hmax. unfold payload_bytes.
  assert (Hw' : w <= INT_MAX) by (unfold INT_MAX in *; nia).
  assert (Hh' : h <= INT_MAX) by (unfold INT_MAX in *; nia).
  rewrite loop_bytes_seq by (lia || exact Hh').
  change (Z.to_nat 0) with 0%nat.
  rewrite (flat_map_seq_ext _
    (fun y => flat_map (fun x => swapped_pixel p (y * Z.to_nat w + x))
                (seq 0 (Z.to_nat w)))).
  - rewrite flat_map_rows. f_equal. f_equal. nia.
  - intros y Hy. rewrite loop_bytes_seq by (lia || exact Hw').
    change (Z.to_nat 0) with 0%nat.
    apply flat_map_seq_ext. intros x Hx.
    apply (pixel_bytes_in_range p w h); (assumption || lia).
Qed.

Lemma byte_at_lookup p idx :
  0 <= idx < Z.of_nat (length p) ->
  p !! Z.to_nat idx = Some (byte_at p idx).
Proof.
  intros H. unfold byte_at.
  assert (Hneg : (idx <? 0) = false) by (apply Z.ltb_ge; lia).
  rewrite Hneg. rewrite nth_lookup.
  destruct (lookup_lt_is_Some_2 p (Z.to_nat idx)) as [b Hb]; [lia|].
  rewrite Hb. reflexivity.
Qed.

Lemma swapped_pixel_lookup p (i : nat) :
  (3 * i + 2 < length p)%nat ->
  exists b g r,
    p !! (3 * i)%nat = Some b /\ p !! (3 * i + 1)%nat = Some g /\
    p !! (3 * i + 2)%nat = Some r /\ swapped_pixel p i = [r; g; b].
Proof.
  intros Hi. unfold swapped_pixel.
  exists (byte_at p (3 * Z.of_nat i)), (byte_at p (3 * Z.of_nat i + 1)),
    (byte_at p (3 * Z.of_nat i + 2)).
  repeat split.
  - rewrite <- byte_at_lookup by lia. f_equal. lia.
  - rewrite <- byte_at_lookup by lia. f_equal. lia.
  - rewrite <- byte_at_lookup by lia. f_equal. lia.
Qed.

(** ** The four ways [save_screenshot] returns *)

Lemma save_screenshot_saved env (s : State) buf p :
  disp_pax_buf env = Some buf -> pixels buf = Some p ->
  fopen_ok env (screenshot_filename (local_time env)) = true ->
  save_screenshot env s = (Saved, saved_state env s (width buf) (height buf) p).
Proof.
  intros Hb Hp Hok. unfold save_screenshot, saved_state. rewrite Hb, Hp.
  cbv zeta.
  set (path := screenshot_filename (local_time env)) in *. clearbody path.
  unfold bind at 1. cbn [record_call].
  unfold bind at 1. unfold asp_log_info at 1. cbn [emit_log].
  unfold bind at 1. unfold fopen. rewrite Hok.
  unfold bind at 1. cbn [record_call bind get set_fs ret fs].
  unfold bind at 1. unfold fprintf.
  match goal with |- context [fwrite_bytes ?b ?f ?s] =>
    rewrite (fwrite_bytes_spec s f [] b) by (cbn [fs]; apply lookup_insert_eq) end.
  unfold bind at 1.
  match goal with |- context [for_int ?fu ?i ?n ?body ?s] =>
    rewrite (for_int_writes (fun y => loop_bytes (Z.to_nat (width buf)) 0 (width buf) (fun x => pixel_bytes p (width buf) y x)) body path n) with (c := [] ++ header_bytes (width buf) (height buf))
   end.
  - unfold bind, fclose, ret, asp_log_info, emit_log, with_file.
    cbn [plugin_ctx hook_id logo_key_held fs log hooks calls].
    f_equal. f_equal.
    + rewrite !insert_insert_eq. reflexivity.
    + rewrite <- !app_assoc. reflexivity.
    + rewrite <- !app_assoc. reflexivity.
  - intros j s0 c Hc.
    apply (for_int_writes (fun x => pixel_bytes p (width buf) j x)); [|exact Hc].
    intros x s1 c1 Hc1. apply write_pixel_spec. exact Hc1.
  - apply with_file_lookup.
Qed.

Lemma save_screenshot_no_surface env (s : State) :
  disp_pax_buf env = None ->
  save_screenshot env s =
  (SurfaceUnavailable,
   logged s [error_entry "Failed to get PAX buffer"] [CallSaveScreenshot]).
Proof. intros Hb. unfold save_screenshot. rewrite Hb. reflexivity. Qed.

Lemma save_screenshot_no_pixels env (s : State) buf :
  disp_pax_buf env = Some buf -> pixels buf = None ->
  save_screenshot env s =
  (PixelBufferUnavailable,
   logged s [error_entry "Failed to get pixel data"] [CallSaveScreenshot]).
Proof. intros Hb Hp. unfold save_screenshot. rewrite Hb, Hp. reflexivity. Qed.

Lemma save_screenshot_open_failure env (s : State) buf p :
  disp_pax_buf env = Some buf -> pixels buf = Some p ->
  fopen_ok env (screenshot_filename (local_time env)) = false ->
  let path := screenshot_filename (local_time env) in
  save_screenshot env s =
  (DestinationOpenFailure,
   logged s
     [info_entry (format [Lit "Saving screenshot to "; Fmt_s; Lit " (";
                          Fmt_d; Lit "x"; Fmt_d; Lit ")"]
                    [Str path; Int (width buf); Int (height buf)]);
      error_entry (format [Lit "Failed to open file "; Fmt_s] [Str path])]
     [CallSaveScreenshot; CallFopen path]).
Proof.
  intros Hb Hp Hok path. unfold save_screenshot. rewrite Hb, Hp.
  cbv zeta. fold path. fold path in Hok. clearbody path.
  unfold bind at 1. cbn [record_call].
  unfold bind at 1. unfold asp_log_info at 1. cbn [emit_log].
  unfold bind at 1. unfold fopen. rewrite Hok.
  unfold bind, record_call, ret, asp_log_error, emit_log, logged, info_entry,
    error_entry.
  cbn [plugin_ctx hook_id logo_key_held fs log hooks calls].
  f_equal. f_equal; rewrite <- !app_assoc; reflexivity.
Qed.

Lemma save_screenshot_outcome env (s : State) :
  fst (save_screenshot env s) = capture_outcome env.
Proof.
  unfold capture_outcome.
  destruct (disp_pax_buf env) as [buf|] eqn:Hb.
  - destruct (pixels buf) as [p|] eqn:Hp.
    + destruct (fopen_ok env (screenshot_filename (local_time env))) eqn:Hok.
      * by rewrite (save_screenshot_saved env s buf p).
      * by rewrite (save_screenshot_open_failure env s buf p).
    + by rewrite (save_screenshot_no_pixels env s buf).
  - by rewrite save_screenshot_no_surface.
Qed.

Lemma count_calls_app p (s s' : State) cs :
  calls s' = calls s ++ cs ->
  count_calls p s' = (count_calls p s + length (List.filter p cs))%nat.
Proof.
  intros H. unfold count_calls. rewrite H, List.filter_app, length_app. reflexivity.
Qed.

Ltac count_new_calls :=
  erewrite count_calls_app
    by (unfold logged, saved_state; cbn [calls]; reflexivity);
  cbn; lia.

(** What one capture leaves of the plugin's statics and of the registry. *)
Lemma save_screenshot_frame env (s : State) :
  let s' := snd (save_screenshot env s) in
  plugin_ctx s' = plugin_ctx s /\ hook_id s' = hook_id s /\
  logo_key_held s' = logo_key_held s /\ hooks s' = hooks s /\
  captures s' = S (captures s).
Proof.
  unfold captures.
  destruct (disp_pax_buf env) as [buf|] eqn:Hb.
  - destruct (pixels buf) as [p|] eqn:Hp.
    + destruct (fopen_ok env (screenshot_filename (local_time env))) eqn:Hok.
      * rewrite (save_screenshot_saved env s buf p) by assumption.
        cbn [snd]. repeat split.
        count_new_calls.
      * rewrite (save_screenshot_open_failure env s buf p) by assumption.
        cbn [snd]. repeat split.
        count_new_calls.
    + rewrite (save_screenshot_no_pixels env s buf) by assumption.
      cbn [snd]. repeat split.
      count_new_calls.
  - rewrite save_screenshot_no_surface by assumption.
    cbn [snd]. repeat split.
    count_new_calls.
Qed.

Lemma save_screenshot_failure_fs env (s : State) :
  capture_outcome env <> Saved -> fs (snd (save_screenshot env s)) = fs s.
Proof.
  unfold capture_outcome.
  destruct (disp_pax_buf env) as [buf|] eqn:Hb.
  - destruct (pixels buf) as [p|] eqn:Hp.
    + destruct (fopen_ok env (screenshot_filename (local_time env))) eqn:Hok.
      * congruence.
      * intros _. by rewrite (save_screenshot_open_failure env s buf p).
    + intros _. by rewrite (save_screenshot_no_pixels env s buf).
  - intros _. by rewrite save_screenshot_no_surface.
Qed.

Lemma save_screenshot_calls env (s : State) :
  exists cs,
    calls (snd (save_screenshot env s)) = calls s ++ cs /\
    List.filter is_register_ok_call cs = [] /\
    List.filter is_unregister_call cs = [].
Proof.
  destruct (disp_pax_buf env) as [buf|] eqn:Hb.
  - destruct (pixels buf) as [p|] eqn:Hp.
    + destruct (fopen_ok env (screenshot_filename (local_time env))) eqn:Hok.
      * rewrite (save_screenshot_saved env s buf p) by assumption.
        eexists. split; [reflexivity|]. split; reflexivity.
      * rewrite (save_screenshot_open_failure env s buf p) by assumption.
        eexists. split; [reflexivity|]. split; reflexivity.
    + rewrite (save_screenshot_no_pixels env s buf) by assumption.
      eexists. split; [reflexivity|]. split; reflexivity.
  - rewrite save_screenshot_no_surface by assumption.
    eexists. split; [reflexivity|]. split; reflexivity.
Qed.

Example sample_screenshot :
  fs (snd (save_screenshot env_ready state0))
    !! "/sd/screenshot-20240305090702.ppm"
  = Some (list_byte_of_string ("P6" +:+ nl +:+ "3 2" +:+ nl +:+ "255" +:+ nl)
          ++ [x03; x02; x01; x06; x05; x04; x09; x08; x07;
              x0c; x0b; x0a; x0f; x0e; x0d; x12; x11; x10]).
Proof. reflexivity. Qed.

Example sample_open_failure :
  save_screenshot env_card_missing state0
  = (DestinationOpenFailure,
     logged state0
       [info_entry
          "Saving screenshot to /sd/screenshot-20240305090702.ppm (3x2)";
        error_entry
          "Failed to open file /sd/screenshot-20240305090702.ppm"]
       [CallSaveScreenshot; CallFopen "/sd/screenshot-20240305090702.ppm"]).
Proof. reflexivity. Qed.

(** ** The framebuffer encoder *)

(** C2.  For a framebuffer of width [W > 0] and height [H > 0] whose
    pixel buffer holds [W * H] triplets in (blue, green, red) order, the
    file the encoder writes is a header that decodes to magic "P6",
    width [W], height [H] and maximum 255, followed by a payload of the
    same length as the buffer in which pixel [i] holds the source bytes
    [3i+2], [3i+1], [3i] in that order, for every [i] below [W * H].
    Pixels keep their row-major index, so rows run top to bottom and
    columns left to right.  The buffer is one that [int] indices
    address: its byte count is at most [INT_MAX], the range in which the
    index arithmetic of the loop is defined. *)
Theorem encoder_round_trip (env : Env) (s : State) (buf : pax_buf_t)
    (p : list byte) :
  disp_pax_buf env = Some buf ->
  pixels buf = Some p ->
  fopen_ok env (screenshot_filename (local_time env)) = true ->
  0 < width buf ->
  0 < height buf ->
  Z.of_nat (length p) = width buf * height buf * 3 ->
  Z.of_nat (length p) <= INT_MAX ->
  exists file payload,
    fs (snd (save_screenshot env s)) !! screenshot_filename (local_time env)
      = Some file /\
    decode_ppm_header file
      = Some ({| ppm_magic := "P6"; ppm_width := width buf;
                 ppm_height := height buf; ppm_maxval := 255 |}, payload) /\
    length payload = length p /\
    forall i : nat,
      (i < Z.to_nat (width buf * height buf))%nat ->
      exists b g r,
        p !! (3 * i)%nat = Some b /\
        p !! (3 * i + 1)%nat = Some g /\
        p !! (3 * i + 2)%nat = Some r /\
        payload !! (3 * i)%nat = Some r /\
        payload !! (3 * i + 1)%nat = Some g /\
        payload !! (3 * i + 2)%nat = Some b.
Proof.
  intros Hb Hp Hok Hw Hh Hlen Hmax. rewrite Hlen in Hmax.
  exists (header_bytes (width buf) (height buf)
          ++ payload_bytes p (width buf) (height buf)),
    (payload_bytes p (width buf) (height buf)).
  rewrite (save_screenshot_saved env s buf p Hb Hp Hok).
  split; [apply lookup_insert_eq|].
  split; [apply decode_header_bytes; lia|].
  rewrite payload_bytes_swapped by assumption.
  assert (Hblock : forall j, length (swapped_pixel p j) = 3%nat)
    by reflexivity.
  split.
  - rewrite (flat_map_blocks_length _ 3 Hblock). lia.
  - intros i Hi.
    destruct (swapped_pixel_lookup p i) as (b & g & r & Hb0 & Hb1 & Hb2 & Hsw);
      [lia|].
    exists b, g, r. split; [exact Hb0|]. split; [exact Hb1|].
    split; [exact Hb2|].
    pose proof (flat_map_blocks_lookup _ 3 Hblock _ i 0 Hi) as H0.
    pose proof (flat_map_blocks_lookup _ 3 Hblock _ i 1 Hi) as H1.
    pose proof (flat_map_blocks_lookup _ 3 Hblock _ i 2 Hi) as H2.
    rewrite Nat.add_0_r in H0.
    rewrite H0, H1, H2 by lia. rewrite Hsw. repeat split.
Qed.

Lemma encoder_round_trip_witness :
  exists file payload,
    fs (snd (save_screenshot env_ready state0))
      !! screenshot_filename (local_time env_ready) = Some file /\
    decode_ppm_header file
      = Some ({| ppm_magic := "P6"; ppm_width := 3; ppm_height := 2;
                 ppm_maxval := 255 |}, payload) /\
    length payload = length sample_pixels /\
    forall i : nat,
      (i < Z.to_nat (3 * 2))%nat ->
      exists b g r,
        sample_pixels !! (3 * i)%nat = Some b /\
        sample_pixels !! (3 * i + 1)%nat = Some g /\
        sample_pixels !! (3 * i + 2)%nat = Some r /\
        payload !! (3 * i)%nat = Some r /\
        payload !! (3 * i + 1)%nat = Some g /\
        payload !! (3 * i + 2)%nat = Some b.
Proof.
  apply (encoder_round_trip env_ready state0 sample_buf sample_pixels);
    try reflexivity.
  unfold INT_MAX. cbn. lia.
Defined.

(** C6, as amended.  For every local time whose fields are in their
    calendar ranges and whose year lies between 0 and 9999, the path is
    the root and prefix "/sd/screenshot-", the year in four digits, the
    1-based month, the day, the hour, the minute and the second in two
    zero-padded digits each, and the suffix ".ppm": 33 characters. *)
Theorem filename_format (t : tm) :
  calendar_time t ->
  0 <= tm_year t + 1900 <= 9999 ->
  screenshot_filename t =
    path_template (tm_year t + 1900) (tm_mon t + 1) (tm_mday t)
      (tm_hour t) (tm_min t) (tm_sec t) /\
  fits_template t (screenshot_filename t) /\
  String.length (screenshot_filename t) = 33%nat.
Proof.
  intros (Hmon & Hday & Hhour & Hmin & Hsec) Hyear.
  assert (Heq : screenshot_filename t =
    path_template (tm_year t + 1900) (tm_mon t + 1) (tm_mday t)
      (tm_hour t) (tm_min t) (tm_sec t)).
  { unfold screenshot_filename, snprintf, filename_fmt. cbn [format].
    rewrite !wrap_int_small by lia.
    rewrite fmt_0d_four by exact Hyear.
    rewrite !fmt_0d_two by lia.
    unfold path_template, path_root_prefix, path_suffix, four_digits,
      two_digits.
    cbv [String.append]. reflexivity. }
  split; [exact Heq|]. split.
  - exists (four_digits (tm_year t + 1900)). split; [reflexivity | exact Heq].
  - rewrite Heq. reflexivity.
Qed.

(** At 2024-03-05 09:07:02 the path is
    "/sd/screenshot-20240305090702.ppm". *)
Lemma filename_format_witness :
  calendar_time clock_2024_03_05 /\
  0 <= tm_year clock_2024_03_05 + 1900 <= 9999 /\
  screenshot_filename clock_2024_03_05 = "/sd/screenshot-20240305090702.ppm".
Proof.
  assert (Hc : calendar_time clock_2024_03_05) by (cbv; intuition discriminate).
  assert (Hy : 0 <= tm_year clock_2024_03_05 + 1900 <= 9999)
    by (cbv; intuition discriminate).
  split; [exact Hc|]. split; [exact Hy|].
  exact (proj1 (filename_format clock_2024_03_05 Hc Hy)).
Defined.

(** C6 as stated fails for a clock in the year 10000: [%04d] is a
    minimum width, the year takes five characters and the path no longer
    has the shape of the template. *)
Lemma year_10000_overflows_template :
  calendar_time clock_year_10000 /\
  screenshot_filename clock_year_10000 = "/sd/screenshot-100000305090702.ppm" /\
  ~ fits_template clock_year_10000 (screenshot_filename clock_year_10000).
Proof.
  split; [cbv; intuition discriminate|]. split; [reflexivity|].
  intros (y & Hlen & Heq).
  apply (f_equal String.length) in Heq.
  rewrite !append_length, Hlen in Heq.
  vm_compute in Heq. discriminate Heq.
Qed.

(** C7.  When the display has no surface (SurfaceUnavailable) or the
    surface has no pixel buffer (PixelBufferUnavailable), the capture
    returns before [fopen] is called: the file system is as it was, and
    nothing but one error line in the log (and the record of the call)
    tells the state from the one before. *)
Theorem failure_leaves_no_file (env : Env) (s : State) :
  disp_pax_buf env = None \/
  (exists buf, disp_pax_buf env = Some buf /\ pixels buf = None) ->
  let (r, s') := save_screenshot env s in
  (r = SurfaceUnavailable \/ r = PixelBufferUnavailable) /\
  fs s' = fs s /\
  count_calls is_fopen_call s' = count_calls is_fopen_call s /\
  exists msg, s' = logged s [error_entry msg] [CallSaveScreenshot].
Proof.
  intros [Hb | (buf & Hb & Hp)].
  - rewrite save_screenshot_no_surface by exact Hb.
    split; [left; reflexivity|]. split; [reflexivity|]. split.
    + count_new_calls.
    + eexists. reflexivity.
  - rewrite (save_screenshot_no_pixels env s buf) by assumption.
    split; [right; reflexivity|]. split; [reflexivity|]. split.
    + count_new_calls.
    + eexists. reflexivity.
Qed.

Lemma failure_leaves_no_file_witness :
  (let (r, s') := save_screenshot env_no_surface state0 in
   (r = SurfaceUnavailable \/ r = PixelBufferUnavailable) /\
   fs s' = fs state0 /\
   count_calls is_fopen_call s' = count_calls is_fopen_call state0 /\
   exists msg, s' = logged state0 [error_entry msg] [CallSaveScreenshot]) /\
  (let (r, s') := save_screenshot env_no_pixels state0 in
   (r = SurfaceUnavailable \/ r = PixelBufferUnavailable) /\
   fs s' = fs state0 /\
   count_calls is_fopen_call s' = count_calls is_fopen_call state0 /\
   exists msg, s' = logged state0 [error_entry msg] [CallSaveScreenshot]).
Proof.
  split.
  - apply (failure_leaves_no_file env_no_surface state0). left. reflexivity.
  - apply (failure_leaves_no_file env_no_pixels state0). right.
    eexists. split; reflexivity.
Defined.

(** C10.  Two captures that see the same width, height, pixel bytes and
    local time, and in which every I/O step succeeds, open the same path
    and leave the same bytes in that file, whatever else differs between
    the two states and hosts.  The framebuffer is one whose every pixel
    the code can read: the buffer holds width * height triplets and its
    byte count is within [int], as in C2. *)
Theorem capture_deterministic (env1 env2 : Env) (s1 s2 : State)
    (buf1 buf2 : pax_buf_t) (p : list byte) :
  disp_pax_buf env1 = Some buf1 ->
  disp_pax_buf env2 = Some buf2 ->
  width buf1 = width buf2 ->
  height buf1 = height buf2 ->
  pixels buf1 = Some p ->
  pixels buf2 = Some p ->
  Z.of_nat (length p) = width buf1 * height buf1 * 3 ->
  Z.of_nat (length p) <= INT_MAX ->
  local_time env1 = local_time env2 ->
  fst (save_screenshot env1 s1) = Saved ->
  fst (save_screenshot env2 s2) = Saved ->
  exists path bytes,
    calls_since s1 (snd (save_screenshot env1 s1))
      [CallSaveScreenshot; CallFopen path] /\
    calls_since s2 (snd (save_screenshot env2 s2))
      [CallSaveScreenshot; CallFopen path] /\
    fs (snd (save_screenshot env1 s1)) !! path = Some bytes /\
    fs (snd (save_screenshot env2 s2)) !! path = Some bytes.
Proof.
  intros Hb1 Hb2 Hw Hh Hp1 Hp2 _ _ Htm Hs1 Hs2.
  rewrite save_screenshot_outcome in Hs1, Hs2.
  unfold capture_outcome in Hs1, Hs2.
  rewrite Hb1, Hp1 in Hs1. rewrite Hb2, Hp2 in Hs2.
  destruct (fopen_ok env1 _) eqn:Hok1; [|discriminate].
  destruct (fopen_ok env2 _) eqn:Hok2; [|discriminate].
  rewrite (save_screenshot_saved env1 s1 buf1 p Hb1 Hp1 Hok1).
  rewrite (save_screenshot_saved env2 s2 buf2 p Hb2 Hp2 Hok2).
  exists (screenshot_filename (local_time env1)),
    (header_bytes (width buf1) (height buf1)
     ++ payload_bytes p (width buf1) (height buf1)).
  unfold calls_since, saved_state. cbn [snd calls fs].
  rewrite <- Htm, <- Hw, <- Hh.
  repeat split; apply lookup_insert_eq.
Qed.

Lemma capture_deterministic_witness :
  exists path bytes,
    calls_since state0 (snd (save_screenshot env_ready state0))
      [CallSaveScreenshot; CallFopen path] /\
    calls_since state_stale (snd (save_screenshot env_ready_again state_stale))
      [CallSaveScreenshot; CallFopen path] /\
    fs (snd (save_screenshot env_ready state0)) !! path = Some bytes /\
    fs (snd (save_screenshot env_ready_again state_stale)) !! path
      = Some bytes.
Proof.
  apply (capture_deterministic env_ready env_ready_again state0 state_stale
           sample_buf sample_buf sample_pixels); try reflexivity.
  unfold INT_MAX. cbn. lia.
Defined.

(** ** The chord detector *)

Ltac scancode_cases e :=
  unfold is_modifier_press, is_modifier_release, is_trigger_press,
    is_scancode_event, scancode_of in *;
  unfold input_hook_callback;
  destruct (type e); cbn [andb] in *; try discriminate;
  unfold BSP_INPUT_SCANCODE_LEFTMETA, BSP_INPUT_SCANCODE_RIGHTMETA,
    BSP_INPUT_SCANCODE_LEFTMETA_REL, BSP_INPUT_SCANCODE_RIGHTMETA_REL,
    BSP_INPUT_SCANCODE_P in *;
  repeat match goal with
    | |- context [?a =? ?b] => destruct (Z.eqb_spec a b)
    | H : context [?a =? ?b] |- _ => destruct (Z.eqb_spec a b)
    end;
  cbn [orb andb] in *; try discriminate; try lia.

Lemma callback_non_scancode env e (s : State) :
  is_scancode_event e = false -> input_hook_callback env e s = (false, s).
Proof.
  unfold is_scancode_event, input_hook_callback.
  destruct (type e); [discriminate | reflexivity].
Qed.

Lemma callback_modifier_press env e (s : State) :
  is_modifier_press e = true ->
  input_hook_callback env e s = (false, with_held true s).
Proof. intros H. scancode_cases e; reflexivity. Qed.

Lemma callback_modifier_release env e (s : State) :
  is_modifier_release e = true ->
  input_hook_callback env e s = (false, with_held false s).
Proof. intros H. scancode_cases e; reflexivity. Qed.

Lemma callback_trigger_held env e (s : State) :
  is_trigger_press e = true -> logo_key_held s = true ->
  input_hook_callback env e s = (true, fired env s).
Proof.
  intros H Hheld. scancode_cases e.
  unfold bind at 1. unfold get. rewrite Hheld. cbn [andb].
  unfold fired, announce, with_held, bind.
  destruct (asp_log_info _ _ _ s) as [[] s1]. cbn [snd].
  destruct (save_screenshot env s1) as [r s2]. cbn [snd].
  destruct (set_logo_key_held false s2) as [[] s3]. reflexivity.
Qed.

Lemma callback_otherwise env e (s : State) :
  is_modifier_press e = false -> is_modifier_release e = false ->
  is_trigger_press e && logo_key_held s = false ->
  input_hook_callback env e s = (false, s).
Proof.
  intros Hp Hr Ht.
  destruct (is_scancode_event e) eqn:Hs;
    [| by apply callback_non_scancode].
  revert Hp Hr Ht. unfold is_modifier_press, is_modifier_release, is_trigger_press.
  rewrite Hs. cbn [andb]. intros Hp Hr Ht.
  unfold input_hook_callback, is_scancode_event in *.
  destruct (type e); [|discriminate].
  fold (scancode_of e). rewrite Hp, Hr.
  unfold bind, get. rewrite Ht. reflexivity.
Qed.

Lemma fired_frame env (s : State) :
  logo_key_held (fired env s) = false /\
  captures (fired env s) = S (captures s) /\
  hook_id (fired env s) = hook_id s /\ hooks (fired env s) = hooks s.
Proof.
  unfold fired.
  destruct (save_screenshot_frame env (snd (announce s))) as (_ & Hh & _ & Hk & Hc).
  repeat split; try assumption.
Qed.

Lemma trigger_is_no_modifier e :
  is_trigger_press e = true ->
  is_modifier_press e = false /\ is_modifier_release e = false.
Proof.
  intros H. unfold is_modifier_press, is_modifier_release, is_trigger_press,
    scancode_of in *.
  destruct (is_scancode_event e); [cbn [andb] in * | discriminate].
  apply Z.eqb_eq in H. rewrite H. split; reflexivity.
Qed.

Lemma deliver_cons env e evs (s : State) :
  deliver ((env, e) :: evs) s =
  let (r, s1) := input_hook_callback env e s in
  let (rs, s2) := deliver evs s1 in (r :: rs, s2).
Proof.
  cbn [deliver]. unfold bind.
  destruct (input_hook_callback env e s) as [r s1].
  destruct (deliver evs s1) as [rs s2]. reflexivity.
Qed.

Example sample_chord :
  fst (deliver [(env_ready, navigation_event); (env_ready, right_logo_press);
                (env_ready, a_press); (env_ready, p_press);
                (env_ready, p_press)] state0)
  = [false; false; false; true; false].
Proof. reflexivity. Qed.

(** C1.  From any state in which the modifier is not held, the events
    modifier-press, trigger-press invoke the capture exactly once and
    leave the modifier not held; the first event is passed on and the
    second is consumed. *)
Theorem chord_fires_once (s : State) (env1 env2 : Env)
    (m t : plugin_input_event_t) :
  logo_key_held s = false ->
  is_modifier_press m = true ->
  is_trigger_press t = true ->
  let (rs, s') := deliver [(env1, m); (env2, t)] s in
  captures s' = S (captures s) /\ logo_key_held s' = false /\
  rs = [false; true].
Proof.
  intros _ Hm Ht. cbn [deliver]. unfold bind.
  rewrite (callback_modifier_press env1 m s Hm).
  rewrite (callback_trigger_held env2 t (with_held true s) Ht) by reflexivity.
  cbn [ret].
  destruct (fired_frame env2 (with_held true s)) as (Hh & Hc & _).
  repeat split; assumption.
Qed.

Lemma chord_fires_once_witness :
  logo_key_held state0 = false /\
  is_modifier_press left_logo_press = true /\
  is_trigger_press p_press = true /\
  let (rs, s') := deliver [(env_ready, left_logo_press); (env_ready, p_press)]
                    state0 in
  captures s' = S (captures state0) /\ logo_key_held s' = false /\
  rs = [false; true].
Proof.
  split; [reflexivity|]. split; [reflexivity|]. split; [reflexivity|].
  apply (chord_fires_once state0 env_ready env_ready left_logo_press p_press);
    reflexivity.
Defined.

(** C3.  From any state in which the modifier is not held, the events
    modifier-press, trigger-press, trigger-press invoke the capture
    exactly once: after the first two events the modifier is already not
    held, so the second trigger-press is passed on without a capture. *)
Theorem repeat_requires_re_press (s : State) (env1 env2 env3 : Env)
    (m t1 t2 : plugin_input_event_t) :
  logo_key_held s = false ->
  is_modifier_press m = true ->
  is_trigger_press t1 = true ->
  is_trigger_press t2 = true ->
  let s2 := snd (deliver [(env1, m); (env2, t1)] s) in
  let (rs, s3) := deliver [(env1, m); (env2, t1); (env3, t2)] s in
  logo_key_held s2 = false /\
  captures s3 = S (captures s) /\
  rs = [false; true; false].
Proof.
  intros _ Hm Ht1 Ht2. cbn [deliver]. unfold bind.
  rewrite (callback_modifier_press env1 m s Hm).
  rewrite (callback_trigger_held env2 t1 (with_held true s) Ht1) by reflexivity.
  destruct (fired_frame env2 (with_held true s)) as (Hh & Hc & _).
  destruct (trigger_is_no_modifier t2 Ht2) as [Hp Hr].
  rewrite (callback_otherwise env3 t2 (fired env2 (with_held true s)) Hp Hr)
    by (rewrite Hh; apply andb_false_r).
  cbn [ret snd]. repeat split; assumption.
Qed.

Lemma repeat_requires_re_press_witness :
  let s2 := snd (deliver [(env_ready, right_logo_press); (env_ready, p_press)]
                   state0) in
  let (rs, s3) := deliver [(env_ready, right_logo_press); (env_ready, p_press);
                           (env_ready, p_press)] state0 in
  logo_key_held s2 = false /\
  captures s3 = S (captures state0) /\
  rs = [false; true; false].
Proof.
  apply (repeat_requires_re_press state0 env_ready env_ready env_ready
           right_logo_press p_press p_press); reflexivity.
Defined.

Lemma chord_free_tail e evs : chord_free (e :: evs) -> chord_free evs.
Proof.
  intros H pre m mid t post Heq. apply (H (e :: pre) m mid t post).
  rewrite Heq. reflexivity.
Qed.

Lemma chord_free_nil : chord_free [].
Proof. intros [|? pre] m mid t post Heq; discriminate Heq. Qed.

Lemma chord_free_cons e evs :
  chord_free evs ->
  (is_modifier_press e = true -> released_before_trigger evs) ->
  chord_free (e :: evs).
Proof.
  intros Hfree Hrel [|e' pre] m mid t post Heq Hm Ht.
  - cbn [app] in Heq. injection Heq as -> ->.
    apply (Hrel Hm mid t post eq_refl Ht).
  - cbn [app] in Heq. injection Heq as -> ->.
    apply (Hfree pre m mid t post eq_refl Hm Ht).
Qed.

Lemma released_before_trigger_nil : released_before_trigger [].
Proof. intros [|? mid] t post Heq; discriminate Heq. Qed.

Lemma released_before_trigger_release e evs :
  is_modifier_release e = true -> released_before_trigger (e :: evs).
Proof.
  intros Hr [|e' mid] t post Heq Ht; cbn [app] in Heq; injection Heq as -> ->.
  - destruct (trigger_is_no_modifier _ Ht) as [_ Hno]. congruence.
  - exists e'. split; [left; reflexivity | exact Hr].
Qed.

Lemma released_before_trigger_skip e evs :
  is_trigger_press e = false ->
  released_before_trigger evs -> released_before_trigger (e :: evs).
Proof.
  intros Hnt Hrel [|e' mid] t post Heq Ht; cbn [app] in Heq;
    injection Heq as -> ->.
  - congruence.
  - destruct (Hrel mid t post eq_refl Ht) as (r & Hin & Hr).
    exists r. split; [right; exact Hin | exact Hr].
Qed.

Lemma chord_free_from_sound evs :
  forall armed,
    chord_free_from armed evs = true ->
    chord_free evs /\ (armed = true -> released_before_trigger evs).
Proof.
  induction evs as [|e evs IH]; intros armed H.
  - split; [apply chord_free_nil | intros _; apply released_before_trigger_nil].
  - cbn [chord_free_from] in H.
    destruct (is_modifier_press e) eqn:Hp.
    { destruct (IH true H) as [Hfree Hrel]. split.
      - apply chord_free_cons; [exact Hfree | intros _; apply Hrel; reflexivity].
      - intros _. apply released_before_trigger_skip; [|apply Hrel; reflexivity].
        destruct (is_trigger_press e) eqn:Ht; [|reflexivity].
        destruct (trigger_is_no_modifier _ Ht). congruence. }
    destruct (is_modifier_release e) eqn:Hr.
    { destruct (IH false H) as [Hfree _]. split.
      - apply chord_free_cons; [exact Hfree | congruence].
      - intros _. apply released_before_trigger_release. exact Hr. }
    destruct (is_trigger_press e) eqn:Ht.
    { apply andb_true_iff in H as [Harmed H].
      destruct armed; [discriminate|].
      destruct (IH false H) as [Hfree _]. split.
      - apply chord_free_cons; [exact Hfree | congruence].
      - discriminate. }
    destruct (IH armed H) as [Hfree Hrel]. split.
    + apply chord_free_cons; [exact Hfree | congruence].
    + intros Ha. apply released_before_trigger_skip; [exact Ht | exact (Hrel Ha)].
Qed.

Lemma chord_freeb_sound evs : chord_freeb evs = true -> chord_free evs.
Proof. intros H. exact (proj1 (chord_free_from_sound evs false H)). Qed.

Lemma no_capture_aux (evs : list (Env * plugin_input_event_t)) :
  forall s : State,
    chord_free (map snd evs) ->
    (logo_key_held s = true -> released_before_trigger (map snd evs)) ->
    let (rs, s') := deliver evs s in
    captures s' = captures s /\ fs s' = fs s /\ Forall (eq false) rs.
Proof.
  induction evs as [|[env e] evs IH]; intros s Hfree Hguard.
  - cbn. repeat split. constructor.
  - rewrite deliver_cons.
    assert (Htail : chord_free (map snd evs))
      by (apply (chord_free_tail e); exact Hfree).
    destruct (is_modifier_press e) eqn:Hp.
    { rewrite (callback_modifier_press env e s Hp).
      specialize (IH (with_held true s) Htail).
      destruct (deliver evs (with_held true s)) as [rs s2].
      destruct IH as (Hc & Hf & Hr).
      - intros _ mid t post Heq Ht.
        apply (Hfree [] e mid t post); [|exact Hp|exact Ht].
        cbn [map snd app]. rewrite Heq. reflexivity.
      - repeat split; [exact Hc | exact Hf | by constructor]. }
    destruct (is_modifier_release e) eqn:Hr.
    { rewrite (callback_modifier_release env e s Hr).
      specialize (IH (with_held false s) Htail).
      destruct (deliver evs (with_held false s)) as [rs s2].
      destruct IH as (Hc & Hf & Hrs).
      - intros Habs. discriminate Habs.
      - repeat split; [exact Hc | exact Hf | by constructor]. }
    assert (Hnot : is_trigger_press e && logo_key_held s = false).
    { destruct (is_trigger_press e) eqn:Ht; [|reflexivity].
      destruct (logo_key_held s) eqn:Hh; [|reflexivity].
      destruct (Hguard eq_refl [] e (map snd evs) eq_refl Ht) as (r & [] & _). }
    rewrite (callback_otherwise env e s Hp Hr Hnot).
    specialize (IH s Htail).
    destruct (deliver evs s) as [rs s2].
    destruct IH as (Hc & Hf & Hrs).
    + intros Hh mid t post Heq Ht.
      destruct (Hguard Hh (e :: mid) t post) as (r & Hin & Hrel);
        [cbn [map snd app]; rewrite Heq; reflexivity | exact Ht |].
      destruct Hin as [<- | Hin]; [congruence|].
      exists r. split; assumption.
    + repeat split; [exact Hc | exact Hf | by constructor].
Qed.

(** C4.  Starting with the modifier not held, a sequence of events in
    which no trigger-press is preceded by a modifier-press without a
    modifier-release in between never invokes the capture: the count of
    captures and the file system are unchanged and every event is
    reported not handled. *)
Theorem no_false_trigger (evs : list (Env * plugin_input_event_t))
    (s : State) :
  logo_key_held s = false ->
  chord_free (map snd evs) ->
  let (rs, s') := deliver evs s in
  captures s' = captures s /\ fs s' = fs s /\ Forall (eq false) rs.
Proof.
  intros Hh Hfree. apply no_capture_aux; [exact Hfree|].
  intros Habs. congruence.
Qed.

(** modifier-press, modifier-release, trigger-press: no capture. *)
Lemma no_false_trigger_witness :
  let (rs, s') := deliver [(env_ready, left_logo_press);
                           (env_ready, left_logo_release);
                           (env_ready, p_press)] state0 in
  captures s' = captures state0 /\ fs s' = fs state0 /\
  Forall (eq false) rs.
Proof.
  apply (no_false_trigger
           [(env_ready, left_logo_press); (env_ready, left_logo_release);
            (env_ready, p_press)] state0).
  - reflexivity.
  - apply chord_freeb_sound. reflexivity.
Defined.

(** C5.  For a single event: a trigger-press while the modifier is held
    is reported handled; a modifier-press or modifier-release is reported
    not handled; an event that is not a scancode event, and a scancode
    event that is none of the above, is reported not handled and leaves
    the state as it was. *)
Theorem consumption_semantics (env : Env) (s : State)
    (e : plugin_input_event_t) :
  (is_trigger_press e = true -> logo_key_held s = true ->
   fst (input_hook_callback env e s) = true) /\
  (is_modifier_press e = true \/ is_modifier_release e = true ->
   fst (input_hook_callback env e s) = false) /\
  (is_scancode_event e = false ->
   input_hook_callback env e s = (false, s)) /\
  (is_scancode_event e = true ->
   is_modifier_press e = false -> is_modifier_release e = false ->
   is_trigger_press e && logo_key_held s = false ->
   input_hook_callback env e s = (false, s)).
Proof.
  repeat split.
  - intros Ht Hh. by rewrite callback_trigger_held.
  - intros [H|H].
    + by rewrite callback_modifier_press.
    + by rewrite callback_modifier_release.
  - apply callback_non_scancode.
  - intros _. apply callback_otherwise.
Qed.

Lemma consumption_semantics_witness :
  fst (input_hook_callback env_ready p_press state_held) = true /\
  fst (input_hook_callback env_ready left_logo_press state0) = false /\
  fst (input_hook_callback env_ready left_logo_release state_held) = false /\
  input_hook_callback env_ready navigation_event state_held
    = (false, state_held) /\
  input_hook_callback env_ready a_press state_held = (false, state_held) /\
  input_hook_callback env_ready p_press state0 = (false, state0).
Proof.
  split.
  { apply (proj1 (consumption_semantics env_ready state_held p_press));
      reflexivity. }
  split.
  { apply (proj1 (proj2 (consumption_semantics env_ready state0
                           left_logo_press))).
    left. reflexivity. }
  split.
  { apply (proj1 (proj2 (consumption_semantics env_ready state_held
                           left_logo_release))).
    right. reflexivity. }
  split.
  { apply (proj1 (proj2 (proj2 (consumption_semantics env_ready state_held
                                  navigation_event)))).
    reflexivity. }
  split.
  { apply (proj2 (proj2 (proj2 (consumption_semantics env_ready state_held
                                  a_press)))); reflexivity. }
  apply (proj2 (proj2 (proj2 (consumption_semantics env_ready state0
                                p_press)))); reflexivity.
Defined.

(** C8.  When the capture started by a trigger-press with the modifier
    held fails (no surface, no pixel buffer, or the destination cannot be
    opened), the event is still reported handled and the modifier is
    still reset to not held; the capture was invoked once and no file
    changed. *)
Theorem capture_failure_still_handled (env : Env) (s : State)
    (e : plugin_input_event_t) :
  is_trigger_press e = true ->
  logo_key_held s = true ->
  capture_outcome env <> Saved ->
  fst (save_screenshot env (snd (announce s))) = capture_outcome env /\
  let (handled, s') := input_hook_callback env e s in
  handled = true /\ logo_key_held s' = false /\
  captures s' = S (captures s) /\ fs s' = fs s.
Proof.
  intros Ht Hh Hfail. split; [apply save_screenshot_outcome|].
  rewrite (callback_trigger_held env e s Ht Hh).
  destruct (fired_frame env s) as (Hf & Hc & _).
  repeat split; try assumption.
  unfold fired, with_held. cbn [set_logo_key_held snd fs].
  by rewrite save_screenshot_failure_fs.
Qed.

Lemma capture_failure_still_handled_witness :
  capture_outcome env_card_missing = DestinationOpenFailure /\
  fst (save_screenshot env_card_missing (snd (announce state_held)))
    = capture_outcome env_card_missing /\
  let (handled, s') := input_hook_callback env_card_missing p_press state_held in
  handled = true /\ logo_key_held s' = false /\
  captures s' = S (captures state_held) /\ fs s' = fs state_held.
Proof.
  split; [reflexivity|].
  apply (capture_failure_still_handled env_card_missing state_held p_press).
  - reflexivity.
  - reflexivity.
  - discriminate.
Defined.

(** ** The plugin lifecycle *)

Lemma initial_state_lifecycle_inv files : lifecycle_inv (initial_state files).
Proof. split; [reflexivity | cbn; lia]. Qed.

Lemma plugin_init_failed env ctx (s : State) :
  hook_register_result env < 0 ->
  let r := hook_register_result env in
  plugin_init env ctx s =
  (-1,
   {| plugin_ctx := Some ctx; hook_id := r;
      logo_key_held := logo_key_held s; fs := fs s;
      log := log s ++ [info_entry "Screenshot plugin initializing...";
                       error_entry "Failed to register input hook"];
      hooks := hooks s; calls := calls s ++ [CallRegister r] |}).
Proof.
  intros Hr. apply Z.ltb_lt in Hr. cbv zeta.
  unfold plugin_init, asp_plugin_input_hook_register.
  set (r := hook_register_result env) in *.
  unfold bind, asp_log_info, asp_log_error, emit_log, set_plugin_ctx,
    record_call, set_hook_id, ret.
  cbn [plugin_ctx hook_id logo_key_held fs log hooks calls].
  rewrite Hr. cbn [plugin_ctx hook_id logo_key_held fs log hooks calls].
  rewrite Hr. cbn [plugin_ctx hook_id logo_key_held fs log hooks calls].
  rewrite <- app_assoc. reflexivity.
Qed.

Lemma plugin_init_registered env ctx (s : State) :
  0 <= hook_register_result env ->
  let r := hook_register_result env in
  plugin_init env ctx s =
  (0,
   {| plugin_ctx := Some ctx; hook_id := r;
      logo_key_held := logo_key_held s; fs := fs s;
      log := log s ++
        [info_entry "Screenshot plugin initializing...";
         info_entry (format [Lit "Screenshot plugin initialized, hook_id=";
                             Fmt_d] [Int r])];
      hooks := r :: hooks s; calls := calls s ++ [CallRegister r] |}).
Proof.
  intros Hr. cbv zeta.
  unfold plugin_init, asp_plugin_input_hook_register.
  set (r := hook_register_result env) in *.
  assert (Hlt : (r <? 0) = false) by (apply Z.ltb_ge; exact Hr).
  unfold bind, asp_log_info, asp_log_error, emit_log, set_plugin_ctx,
    record_call, set_hook_id, set_hooks, get, ret.
  cbn [plugin_ctx hook_id logo_key_held fs log hooks calls].
  rewrite Hlt. cbn [plugin_ctx hook_id logo_key_held fs log hooks calls].
  rewrite Hlt. cbn [plugin_ctx hook_id logo_key_held fs log hooks calls].
  rewrite <- app_assoc. reflexivity.
Qed.

Lemma plugin_cleanup_registered ctx (s : State) :
  0 <= hook_id s ->
  plugin_cleanup ctx s =
  (tt,
   {| plugin_ctx := None; hook_id := -1;
      logo_key_held := logo_key_held s; fs := fs s;
      log := log s ++ [info_entry "Screenshot plugin cleaned up"];
      hooks := remove_first (hook_id s) (hooks s);
      calls := calls s ++ [CallUnregister (hook_id s)] |}).
Proof.
  intros Hr. apply Z.leb_le in Hr.
  unfold plugin_cleanup, asp_plugin_input_hook_unregister.
  unfold bind, get. rewrite Hr. reflexivity.
Qed.

Lemma plugin_cleanup_unregistered ctx (s : State) :
  hook_id s < 0 ->
  plugin_cleanup ctx s =
  (tt,
   {| plugin_ctx := None; hook_id := hook_id s;
      logo_key_held := logo_key_held s; fs := fs s;
      log := log s ++ [info_entry "Screenshot plugin cleaned up"];
      hooks := hooks s; calls := calls s |}).
Proof.
  intros Hr. apply Z.leb_gt in Hr.
  unfold plugin_cleanup. unfold bind, get. rewrite Hr. reflexivity.
Qed.

Lemma plugin_cleanup_inv ctx (s : State) :
  lifecycle_inv s ->
  let s' := snd (plugin_cleanup ctx s) in
  lifecycle_inv s' /\ hook_id s' < 0 /\ hooks s' = [] /\
  calls_since s s'
    (if 0 <=? hook_id s then [CallUnregister (hook_id s)] else []).
Proof.
  intros [Hh Hc]. unfold hook_inv, calls_since in *.
  destruct (Z.leb_spec 0 (hook_id s)) as [Hge|Hlt].
  - rewrite plugin_cleanup_registered by exact Hge. cbn [snd].
    unfold lifecycle_inv, hook_inv, count_calls in *.
    cbn [plugin_ctx hook_id logo_key_held fs log hooks calls].
    rewrite Hh. cbn [remove_first]. rewrite Z.eqb_refl.
    rewrite !List.filter_app, !length_app. cbn.
    repeat split; lia.
  - rewrite plugin_cleanup_unregistered by exact Hlt. cbn [snd].
    unfold lifecycle_inv, hook_inv, count_calls in *.
    cbn [plugin_ctx hook_id logo_key_held fs log hooks calls].
    apply Z.leb_gt in Hlt. rewrite Hlt. rewrite app_nil_r.
    apply Z.leb_gt in Hlt.
    repeat split; try assumption; lia.
Qed.

Lemma plugin_init_inv env ctx (s : State) :
  lifecycle_inv s ->
  hook_id s < 0 ->
  let (r, s') := plugin_init env ctx s in
  lifecycle_inv s' /\
  (hook_register_result env < 0 ->
   r = -1 /\ hook_id s' < 0 /\ hooks s' = []) /\
  (0 <= hook_register_result env ->
   r = 0 /\ hook_id s' = hook_register_result env /\
   hooks s' = [hook_id s']).
Proof.
  intros [Hh Hc] Hneg. unfold hook_inv in Hh.
  assert (Hleb : (0 <=? hook_id s) = false) by (apply Z.leb_gt; exact Hneg).
  rewrite Hleb in Hh, Hc.
  destruct (Z.lt_ge_cases (hook_register_result env) 0) as [Hr|Hr].
  - rewrite plugin_init_failed by exact Hr.
    unfold lifecycle_inv, hook_inv, count_calls in *.
    cbn [plugin_ctx hook_id logo_key_held fs log hooks calls].
    assert (Hleb' : (0 <=? hook_register_result env) = false)
      by (apply Z.leb_gt; exact Hr).
    rewrite Hleb'. rewrite !List.filter_app, !length_app. cbn.
    rewrite Hleb'. cbn.
    repeat split; try assumption; lia.
  - rewrite plugin_init_registered by exact Hr.
    unfold lifecycle_inv, hook_inv, count_calls in *.
    cbn [plugin_ctx hook_id logo_key_held fs log hooks calls].
    assert (Hleb' : (0 <=? hook_register_result env) = true)
      by (apply Z.leb_le; exact Hr).
    rewrite Hleb'. rewrite !List.filter_app, !length_app. cbn.
    rewrite Hleb'. cbn. rewrite Hh.
    repeat split; try reflexivity; lia.
Qed.

Lemma callback_lifecycle_inv env e (s : State) :
  lifecycle_inv s -> lifecycle_inv (snd (input_hook_callback env e s)).
Proof.
  intros Hinv.
  destruct (is_modifier_press e) eqn:Hp.
  { rewrite callback_modifier_press by exact Hp. exact Hinv. }
  destruct (is_modifier_release e) eqn:Hr.
  { rewrite callback_modifier_release by exact Hr. exact Hinv. }
  destruct (is_trigger_press e && logo_key_held s) eqn:Ht.
  - apply andb_true_iff in Ht as [Ht Hh].
    rewrite callback_trigger_held by assumption. cbn [snd].
    destruct (fired_frame env s) as (_ & _ & Hid & Hhooks).
    destruct (save_screenshot_calls env (snd (announce s)))
      as (cs & Hcalls & Hreg & Hunreg).
    destruct Hinv as [Hh' Hc]. unfold lifecycle_inv, hook_inv in *.
    rewrite Hid, Hhooks. split; [exact Hh'|].
    assert (Hcs : calls (fired env s) = calls s ++ cs) by exact Hcalls.
    rewrite (count_calls_app _ s _ cs Hcs), (count_calls_app _ s _ cs Hcs).
    rewrite Hreg, Hunreg. cbn [length]. lia.
  - rewrite callback_otherwise by assumption. exact Hinv.
Qed.

(** Every state the host can bring the plugin to satisfies the
    invariant. *)
Lemma reachable_lifecycle_inv (s : State) : reachable s -> lifecycle_inv s.
Proof.
  induction 1 as [files | s s' _ IH Hcall].
  - apply initial_state_lifecycle_inv.
  - destruct Hcall as [env ctx s Hneg | ctx s | env ev s].
    + pose proof (plugin_init_inv env ctx s IH Hneg) as H.
      destruct (plugin_init env ctx s) as [r s1]. exact (proj1 H).
    + exact (proj1 (plugin_cleanup_inv ctx s IH)).
    + apply callback_lifecycle_inv. exact IH.
Qed.

Example sample_lifecycle :
  calls (snd (plugin_cleanup 7 (snd (plugin_cleanup 7
           (snd (plugin_init env_ready 7 state0))))))
  = [CallRegister 3; CallUnregister 3].
Proof. reflexivity. Qed.

Example sample_failed_init :
  fst (plugin_init env_card_missing 7 state0) = -1 /\
  calls (snd (plugin_cleanup 7 (snd (plugin_init env_card_missing 7 state0))))
  = [CallRegister (-1)].
Proof. split; reflexivity. Qed.

(** C9, as amended.  In a state where the handle is nonnegative exactly
    when a hook is registered: [plugin_init], called while no hook is
    held (the stored handle is negative), keeps
    that invariant, returns -1 with a negative handle and nothing
    registered when registration fails, and returns 0 with the hook
    registered under the stored handle otherwise; [plugin_cleanup] keeps
    the invariant, calls unregister exactly when the handle is
    nonnegative and then stores -1, and a second [plugin_cleanup] makes
    no call.  Unregistrations never outnumber successful
    registrations. *)
Theorem hook_handle_lifecycle (s : State) :
  lifecycle_inv s ->
  (forall env ctx,
     hook_id s < 0 ->
     let (r, s') := plugin_init env ctx s in
     lifecycle_inv s' /\
     (hook_register_result env < 0 ->
      r = -1 /\ hook_id s' < 0 /\ hooks s' = []) /\
     (0 <= hook_register_result env ->
      r = 0 /\ hook_id s' = hook_register_result env /\
      hooks s' = [hook_id s'])) /\
  (forall ctx,
     let s' := snd (plugin_cleanup ctx s) in
     lifecycle_inv s' /\ hook_id s' < 0 /\ hooks s' = [] /\
     calls_since s s'
       (if 0 <=? hook_id s then [CallUnregister (hook_id s)] else []) /\
     (hook_id s < 0 \/ hook_id s' = -1) /\
     forall ctx', calls_since s' (snd (plugin_cleanup ctx' s')) []).
Proof.
  intros Hinv. split.
  - intros env ctx Hneg. apply plugin_init_inv; assumption.
  - intros ctx.
    destruct (plugin_cleanup_inv ctx s Hinv) as (Hinv' & Hneg & Hhooks & Hcalls).
    split; [exact Hinv'|]. split; [exact Hneg|]. split; [exact Hhooks|].
    split; [exact Hcalls|]. split.
    + destruct (Z.lt_ge_cases (hook_id s) 0) as [Hr|Hr]; [left; exact Hr|right].
      rewrite plugin_cleanup_registered by exact Hr. reflexivity.
    + intros ctx'.
      destruct (plugin_cleanup_inv ctx' _ Hinv') as (_ & _ & _ & Hcalls').
      apply Z.leb_gt in Hneg. rewrite Hneg in Hcalls'. exact Hcalls'.
Qed.

(** A successful registration from the initial state, the cleanup that
    unregisters it, a second cleanup, and a failed registration. *)
Lemma hook_handle_lifecycle_witness :
  let s1 := snd (plugin_init env_ready 7 state0) in
  let s2 := snd (plugin_cleanup 7 s1) in
  let sf := snd (plugin_init env_card_missing 7 state0) in
  lifecycle_inv state0 /\ hook_id state0 < 0 /\
  0 <= hook_register_result env_ready /\
  fst (plugin_init env_ready 7 state0) = 0 /\
  lifecycle_inv s1 /\ hook_id s1 = 3 /\ hooks s1 = [3] /\
  lifecycle_inv s2 /\ hook_id s2 = -1 /\ hooks s2 = [] /\
  calls_since s1 s2 [CallUnregister 3] /\
  calls_since s2 (snd (plugin_cleanup 7 s2)) [] /\
  hook_register_result env_card_missing < 0 /\
  fst (plugin_init env_card_missing 7 state0) = -1 /\
  lifecycle_inv sf /\ hook_id sf < 0 /\ hooks sf = [].
Proof.
  intros s1 s2 sf.
  assert (Hinv : lifecycle_inv state0).
  { split; [reflexivity | cbn; lia]. }
  assert (Hneg : hook_id state0 < 0) by reflexivity.
  assert (Hok : 0 <= hook_register_result env_ready) by (cbv; discriminate).
  assert (Hfail : hook_register_result env_card_missing < 0) by reflexivity.
  pose proof (proj1 (hook_handle_lifecycle state0 Hinv) env_ready 7 Hneg)
    as Hinit.
  rewrite (surjective_pairing (plugin_init env_ready 7 state0)) in Hinit.
  destruct Hinit as (Hinv1 & _ & Hreg).
  destruct (Hreg Hok) as (Hret & Hid1 & Hhooks1).
  pose proof (proj1 (hook_handle_lifecycle state0 Hinv) env_card_missing 7
                Hneg) as Hinitf.
  rewrite (surjective_pairing (plugin_init env_card_missing 7 state0))
    in Hinitf.
  destruct Hinitf as (Hinvf & Hnoreg & _).
  destruct (Hnoreg Hfail) as (Hretf & Hidf & Hhooksf).
  pose proof (proj2 (hook_handle_lifecycle s1 Hinv1) 7) as Hclean.
  destruct Hclean as (Hinv2 & _ & Hhooks2 & Hcalls2 & Hminus & Hagain).
  destruct Hminus as [Habs | Hid2]; [discriminate Habs|].
  split; [exact Hinv|]. split; [exact Hneg|]. split; [exact Hok|].
  split; [exact Hret|]. split; [exact Hinv1|]. split; [exact Hid1|].
  split; [exact Hhooks1|].
  split; [exact Hinv2|]. split; [exact Hid2|]. split; [exact Hhooks2|].
  split; [exact Hcalls2|]. split; [exact (Hagain 7)|].
  split; [exact Hfail|]. split; [exact Hretf|]. split; [exact Hinvf|].
  split; [exact Hidf | exact Hhooksf].
Defined.

(** C9 as stated fails when [plugin_init] is called a second time with no
    cleanup in between: each state before a call satisfies the
    invariant or is reached from one that does, yet after init, init,
    cleanup the handle is -1 while the first hook, 3, is still
    registered. *)
Lemma second_init_breaks_handle_invariant :
  let s1 := snd (plugin_init env_ready 7 state0) in
  let s2 := snd (plugin_init env_red 8 s1) in
  let s3 := snd (plugin_cleanup 8 s2) in
  lifecycle_inv state0 /\ lifecycle_inv s1 /\
  fst (plugin_init env_red 8 s1) = 0 /\
  hook_id s3 = -1 /\ hooks s3 = [3] /\
  ~ hook_inv s3.
Proof.
  intros s1 s2 s3.
  split; [split; [reflexivity | cbn; lia]|].
  split; [split; [reflexivity | cbn; lia]|].
  split; [reflexivity|]. split; [reflexivity|]. split; [reflexivity|].
  intros H. discriminate H.
Qed.

(** * Further properties *)

(** ** The detector over whole event streams *)

(** One event adds one capture exactly when it is reported handled. *)
Lemma callback_step env e (s : State) :
  let (r, s') := input_hook_callback env e s in
  (r, logo_key_held s') = chord_step (logo_key_held s) e /\
  captures s' = (captures s + (if r then 1 else 0))%nat.
Proof.
  unfold chord_step.
  destruct (is_modifier_press e) eqn:Hp.
  { rewrite callback_modifier_press by exact Hp. split; [reflexivity|].
    change (captures (with_held true s)) with (captures s). lia. }
  destruct (is_modifier_release e) eqn:Hr.
  { rewrite callback_modifier_release by exact Hr. split; [reflexivity|].
    change (captures (with_held false s)) with (captures s). lia. }
  destruct (is_trigger_press e && logo_key_held s) eqn:Ht.
  - apply andb_true_iff in Ht as [Ht Hh].
    rewrite callback_trigger_held by assumption.
    destruct (fired_frame env s) as (Hf & Hc & _).
    rewrite Hf, Hc. split; [reflexivity | lia].
  - rewrite callback_otherwise by assumption. split; [reflexivity | lia].
Qed.

Lemma deliver_app evs1 evs2 (s : State) :
  deliver (evs1 ++ evs2) s =
  let (rs1, s1) := deliver evs1 s in
  let (rs2, s2) := deliver evs2 s1 in (rs1 ++ rs2, s2).
Proof.
  revert s. induction evs1 as [|[env e] evs1 IH]; intros s.
  - cbn [app deliver ret]. destruct (deliver evs2 s). reflexivity.
  - cbn [app]. rewrite !deliver_cons.
    destruct (input_hook_callback env e s) as [r s1].
    rewrite IH. destruct (deliver evs1 s1) as [rs1 s2].
    destruct (deliver evs2 s2) as [rs2 s3]. reflexivity.
Qed.

Lemma deliver_captures_mono evs :
  forall s : State, (captures s <= captures (snd (deliver evs s)))%nat.
Proof.
  induction evs as [|[env e] evs IH]; intros s; [cbn; lia|].
  rewrite deliver_cons.
  pose proof (callback_step env e s) as Hstep.
  destruct (input_hook_callback env e s) as [r s1].
  destruct Hstep as [_ Hc]. specialize (IH s1).
  destruct (deliver evs s1) as [rs s2]. cbn [snd] in *. lia.
Qed.

(** X1.  Over any stream of events, from any state and whatever the
    host answers, the number of captures grows by the number of events
    reported handled: an event is consumed exactly when it started a
    capture. *)
Theorem handled_events_are_captures
    (evs : list (Env * plugin_input_event_t)) (s : State) :
  let (rs, s') := deliver evs s in
  captures s' = (captures s + count_handled rs)%nat.
Proof.
  revert s. induction evs as [|[env e] evs IH]; intros s.
  - cbn. lia.
  - rewrite deliver_cons.
    pose proof (callback_step env e s) as Hstep.
    destruct (input_hook_callback env e s) as [r s1].
    destruct Hstep as [_ Hc]. specialize (IH s1).
    destruct (deliver evs s1) as [rs s2].
    rewrite IH, Hc. unfold count_handled. cbn [List.filter].
    destruct r; cbn [length]; lia.
Qed.

(** X2.  The answers to a stream of events and the flag left at its end
    are those of the two-state machine [chord_step] run from the flag at
    the start: neither the display, the clock, the file system nor the
    outcome of any capture has a say in them. *)
Theorem detector_follows_chord_run
    (evs : list (Env * plugin_input_event_t)) (s : State) :
  let (rs, s') := deliver evs s in
  (rs, logo_key_held s') = chord_run (logo_key_held s) (map snd evs).
Proof.
  revert s. induction evs as [|[env e] evs IH]; intros s.
  - reflexivity.
  - rewrite deliver_cons. cbn [map snd chord_run].
    pose proof (callback_step env e s) as Hstep.
    destruct (input_hook_callback env e s) as [r s1].
    destruct Hstep as [Hstep _]. rewrite <- Hstep.
    specialize (IH s1). destruct (deliver evs s1) as [rs s2].
    rewrite <- IH. reflexivity.
Qed.

Lemma held_until_capture mid :
  forall s : State,
    logo_key_held s = true ->
    (forall ee, In ee mid -> is_modifier_release (snd ee) = false) ->
    let s' := snd (deliver mid s) in
    (captures s < captures s')%nat \/
    (logo_key_held s' = true /\ captures s' = captures s).
Proof.
  induction mid as [|[env e] mid IH]; intros s Hh Hno.
  - right. split; [exact Hh | reflexivity].
  - rewrite deliver_cons.
    assert (Hr : is_modifier_release e = false)
      by (apply (Hno (env, e)); left; reflexivity).
    assert (Hno' : forall ee, In ee mid -> is_modifier_release (snd ee) = false)
      by (intros ee Hin; apply Hno; right; exact Hin).
    pose proof (callback_step env e s) as Hstep.
    destruct (input_hook_callback env e s) as [r s1].
    destruct Hstep as [Hstep Hc].
    unfold chord_step in Hstep. rewrite Hr, Hh, andb_true_r in Hstep.
    pose proof (deliver_captures_mono mid s1) as Hmono.
    destruct (is_modifier_press e).
    + injection Hstep as -> Hh1.
      specialize (IH s1 Hh1 Hno').
      destruct (deliver mid s1) as [rs s2]. cbn [snd] in *.
      destruct IH as [IH | [IH1 IH2]];
        [left; lia | right; split; [exact IH1 | lia]].
    + destruct (is_trigger_press e).
      * injection Hstep as -> _.
        destruct (deliver mid s1) as [rs s2]. cbn [snd] in *. left. lia.
      * injection Hstep as -> Hh1.
        specialize (IH s1 Hh1 Hno').
        destruct (deliver mid s1) as [rs s2]. cbn [snd] in *.
        destruct IH as [IH | [IH1 IH2]];
          [left; lia | right; split; [exact IH1 | lia]].
Qed.

(** X3.  No chord is missed: when a stream holds a modifier-press and,
    later, a trigger-press with no modifier-release between the two, at
    least one capture is made, from any state and whatever the host
    answers. *)
Theorem armed_trigger_fires
    (pre mid post : list (Env * plugin_input_event_t))
    (pm pt : Env * plugin_input_event_t) (s : State) :
  is_modifier_press (snd pm) = true ->
  is_trigger_press (snd pt) = true ->
  (forall ee, In ee mid -> is_modifier_release (snd ee) = false) ->
  (captures s
   < captures (snd (deliver (pre ++ pm :: mid ++ pt :: post) s)))%nat.
Proof.
  intros Hm Ht Hno. destruct pm as [em m], pt as [et t]. cbn [snd] in Hm, Ht.
  rewrite deliver_app.
  pose proof (deliver_captures_mono pre s) as Hpre.
  destruct (deliver pre s) as [rs0 s0]. cbn [snd] in Hpre.
  rewrite deliver_cons, (callback_modifier_press em m s0 Hm).
  rewrite deliver_app.
  pose proof (held_until_capture mid (with_held true s0) eq_refl Hno) as Hmid.
  destruct (deliver mid (with_held true s0)) as [rs1 s1]. cbn [snd] in Hmid.
  change (captures (with_held true s0)) with (captures s0) in Hmid.
  rewrite deliver_cons.
  pose proof (callback_step et t s1) as Hstep.
  destruct (input_hook_callback et t s1) as [r s2].
  destruct Hstep as [Hstep Hc].
  pose proof (deliver_captures_mono post s2) as Hpost.
  destruct (deliver post s2) as [rs3 s3]. cbn [snd] in *.
  destruct Hmid as [Hlt | [Hheld Heq]]; [destruct r; lia|].
  unfold chord_step in Hstep.
  destruct (trigger_is_no_modifier t Ht) as [Hp Hr].
  rewrite Hp, Hr, Ht, Hheld in Hstep. cbn [andb] in Hstep.
  injection Hstep as -> _. lia.
Qed.

Lemma armed_trigger_fires_witness :
  (captures state0
   < captures (snd (deliver ([(env_ready, a_press)]
                             ++ (env_ready, right_logo_press)
                             :: [(env_ready, a_press);
                                 (env_no_surface, left_logo_press)]
                             ++ (env_ready, p_press)
                             :: [(env_ready, left_logo_release)])
                           state0)))%nat.
Proof.
  apply (armed_trigger_fires [(env_ready, a_press)]
           [(env_ready, a_press); (env_no_surface, left_logo_press)]
           [(env_ready, left_logo_release)]
           (env_ready, right_logo_press) (env_ready, p_press) state0).
  - reflexivity.
  - reflexivity.
  - intros ee [<- | [<- | []]]; reflexivity.
Defined.

(** X4.  Every chord fires, and fires once: a stream made of [n] pairs
    modifier-press, trigger-press makes exactly [n] captures, passes on
    every modifier-press and consumes every trigger-press.  The
    modifier-press re-arms the detector each time. *)
Theorem one_capture_per_chord (cs : list chord) (s : State) :
  Forall is_chord cs ->
  let (rs, s') := deliver (chord_events cs) s in
  captures s' = (captures s + length cs)%nat /\
  rs = flat_map (fun _ : chord => [false; true]) cs /\
  logo_key_held s' = match cs with [] => logo_key_held s | _ => false end.
Proof.
  intros Hcs. revert s.
  induction Hcs as [|[[em m] [et t]] cs [Hm Ht] _ IH]; intros s.
  - cbn. split; [lia|]. split; reflexivity.
  - cbn [fst snd] in Hm, Ht.
    change (chord_events (((em, m), (et, t)) :: cs))
      with ((em, m) :: (et, t) :: chord_events cs).
    rewrite deliver_cons, (callback_modifier_press em m s Hm).
    cbv beta iota.
    rewrite deliver_cons.
    rewrite (callback_trigger_held et t (with_held true s) Ht) by reflexivity.
    destruct (fired_frame et (with_held true s)) as (Hf & Hc & _).
    specialize (IH (fired et (with_held true s))).
    destruct (deliver (chord_events cs) (fired et (with_held true s)))
      as [rs s'].
    destruct IH as (IHc & IHr & IHh).
    split; [|split].
    + rewrite IHc, Hc. change (captures (with_held true s)) with (captures s).
      cbn [length]. lia.
    + rewrite IHr. reflexivity.
    + rewrite IHh. destruct cs; [exact Hf | reflexivity].
Qed.

Lemma one_capture_per_chord_witness :
  let cs : list chord :=
    [((env_ready, left_logo_press), (env_no_surface, p_press));
     ((env_ready, right_logo_press), (env_ready, p_press));
     ((env_card_missing, left_logo_press), (env_card_missing, p_press))] in
  Forall is_chord cs /\
  let (rs, s') := deliver (chord_events cs) state_held in
  captures s' = (captures state_held + length cs)%nat /\
  rs = flat_map (fun _ : chord => [false; true]) cs /\
  logo_key_held s'
  = match cs with [] => logo_key_held state_held | _ => false end.
Proof.
  intros cs.
  assert (Hcs : Forall is_chord cs).
  { repeat constructor. }
  split; [exact Hcs|].
  apply (one_capture_per_chord cs state_held Hcs).
Defined.

(** X5.  A modifier-release disarms the detector whatever came before
    it, which key was pressed and which one is released: after it, a
    stream without a fresh chord makes no capture and has every event
    passed on, even when the state before the release had the modifier
    held. *)
Theorem release_disarms (env : Env) (r : plugin_input_event_t)
    (evs : list (Env * plugin_input_event_t)) (s : State) :
  is_modifier_release r = true ->
  chord_free (map snd evs) ->
  let (rs, s') := deliver ((env, r) :: evs) s in
  captures s' = captures s /\ fs s' = fs s /\ Forall (eq false) rs.
Proof.
  intros Hr Hfree. rewrite deliver_cons.
  rewrite (callback_modifier_release env r s Hr).
  pose proof (no_capture_aux evs (with_held false s) Hfree) as H.
  destruct (deliver evs (with_held false s)) as [rs s'].
  destruct H as (Hc & Hf & Hrs).
  - intros Habs. discriminate Habs.
  - split; [exact Hc|]. split; [exact Hf|].
    constructor; [reflexivity | exact Hrs].
Qed.

Lemma release_disarms_witness :
  logo_key_held state_held = true /\
  let (rs, s') := deliver ((env_ready, right_logo_release)
                           :: [(env_ready, a_press); (env_ready, p_press)])
                    state_held in
  captures s' = captures state_held /\ fs s' = fs state_held /\
  Forall (eq false) rs.
Proof.
  split; [reflexivity|].
  apply (release_disarms env_ready right_logo_release
           [(env_ready, a_press); (env_ready, p_press)] state_held).
  - reflexivity.
  - apply chord_freeb_sound. reflexivity.
Defined.

Lemma save_screenshot_calls_registration env (s : State) :
  exists cs,
    calls (snd (save_screenshot env s)) = calls s ++ cs /\
    List.filter is_register_call cs = [] /\
    List.filter is_unregister_call cs = [].
Proof.
  destruct (disp_pax_buf env) as [buf|] eqn:Hb.
  - destruct (pixels buf) as [p|] eqn:Hp.
    + destruct (fopen_ok env (screenshot_filename (local_time env))) eqn:Hok.
      * rewrite (save_screenshot_saved env s buf p) by assumption.
        eexists. split; [reflexivity|]. split; reflexivity.
      * rewrite (save_screenshot_open_failure env s buf p) by assumption.
        eexists. split; [reflexivity|]. split; reflexivity.
    + rewrite (save_screenshot_no_pixels env s buf) by assumption.
      eexists. split; [reflexivity|]. split; reflexivity.
  - rewrite save_screenshot_no_surface by assumption.
    eexists. split; [reflexivity|]. split; reflexivity.
Qed.

Lemma save_screenshot_other_files env (s : State) path :
  path <> screenshot_filename (local_time env) ->
  fs (snd (save_screenshot env s)) !! path = fs s !! path.
Proof.
  intros Hne.
  destruct (capture_outcome env) eqn:Hout.
  - unfold capture_outcome in Hout.
    destruct (disp_pax_buf env) as [buf|] eqn:Hb; [|discriminate].
    destruct (pixels buf) as [p|] eqn:Hp; [|discriminate].
    destruct (fopen_ok env (screenshot_filename (local_time env))) eqn:Hok;
      [|discriminate].
    rewrite (save_screenshot_saved env s buf p Hb Hp Hok).
    unfold saved_state. cbn [snd fs].
    apply lookup_insert_ne. congruence.
  - rewrite save_screenshot_failure_fs by congruence. reflexivity.
  - rewrite save_screenshot_failure_fs by congruence. reflexivity.
  - rewrite save_screenshot_failure_fs by congruence. reflexivity.
Qed.

(** X6.  Handling an input event never touches the plugin's
    registration: the stored context, the hook handle and the host's
    registry are as before and no register call, whatever its answer,
    and no unregister call is made.  Of the file system it can change
    one file only, the one named after the local time of that moment. *)
Theorem callback_leaves_registration (env : Env)
    (e : plugin_input_event_t) (s : State) :
  let s' := snd (input_hook_callback env e s) in
  plugin_ctx s' = plugin_ctx s /\
  hook_id s' = hook_id s /\
  hooks s' = hooks s /\
  count_calls is_register_call s' = count_calls is_register_call s /\
  count_calls is_unregister_call s' = count_calls is_unregister_call s /\
  forall path,
    path <> screenshot_filename (local_time env) ->
    fs s' !! path = fs s !! path.
Proof.
  destruct (is_modifier_press e) eqn:Hp.
  { rewrite callback_modifier_press by exact Hp. cbn. repeat split. }
  destruct (is_modifier_release e) eqn:Hr.
  { rewrite callback_modifier_release by exact Hr. cbn. repeat split. }
  destruct (is_trigger_press e && logo_key_held s) eqn:Ht.
  - apply andb_true_iff in Ht as [Ht Hh].
    rewrite callback_trigger_held by assumption. cbn [snd].
    destruct (save_screenshot_frame env (snd (announce s)))
      as (Hctx & Hid & _ & Hhooks & _).
    destruct (save_screenshot_calls_registration env (snd (announce s)))
      as (cs & Hcalls & Hreg & Hunreg).
    assert (Hcs : calls (fired env s) = calls s ++ cs) by exact Hcalls.
    split; [exact Hctx|]. split; [exact Hid|]. split; [exact Hhooks|].
    split; [rewrite (count_calls_app _ s _ cs Hcs), Hreg; cbn; lia|].
    split; [rewrite (count_calls_app _ s _ cs Hcs), Hunreg; cbn; lia|].
    intros path Hne.
    exact (save_screenshot_other_files env (snd (announce s)) path Hne).
  - rewrite callback_otherwise by assumption. cbn. repeat split.
Qed.

Lemma callback_leaves_registration_witness :
  let s' := snd (input_hook_callback env_ready p_press state_stale) in
  "/sd/notes.txt" <> screenshot_filename (local_time env_ready) /\
  plugin_ctx s' = plugin_ctx state_stale /\
  hook_id s' = hook_id state_stale /\
  hooks s' = hooks state_stale /\
  count_calls is_register_call s' = count_calls is_register_call state_stale /\
  count_calls is_unregister_call s'
  = count_calls is_unregister_call state_stale /\
  fs s' !! "/sd/notes.txt" = fs state_stale !! "/sd/notes.txt".
Proof.
  intros s'.
  assert (Hne : "/sd/notes.txt" <> screenshot_filename (local_time env_ready))
    by discriminate.
  destruct (callback_leaves_registration env_ready p_press state_stale)
    as (Hctx & Hid & Hhooks & Hreg & Hunreg & Hfs).
  split; [exact Hne|]. split; [exact Hctx|]. split; [exact Hid|].
  split; [exact Hhooks|]. split; [exact Hreg|]. split; [exact Hunreg|].
  exact (Hfs "/sd/notes.txt" Hne).
Defined.

(** ** More on the encoder *)

Lemma errors_logged_app (s s' : State) entries :
  log s' = log s ++ entries ->
  errors_logged s'
  = (errors_logged s + length (List.filter is_error_entry entries))%nat.
Proof.
  intros H. unfold errors_logged. rewrite H, List.filter_app, length_app.
  reflexivity.
Qed.

(** X7.  A capture is logged at error level exactly when it fails, and
    then once; a failed capture leaves every file as it was, also when
    the failure is that the destination cannot be opened; and [fopen] is
    called once when surface and pixel buffer are there, not at all
    otherwise. *)
Theorem capture_failure_is_clean (env : Env) (s : State) :
  let (r, s') := save_screenshot env s in
  r = capture_outcome env /\
  (r <> Saved -> fs s' = fs s /\ errors_logged s' = S (errors_logged s)) /\
  (r = Saved -> errors_logged s' = errors_logged s) /\
  count_calls is_fopen_call s'
  = (count_calls is_fopen_call s
     + match r with
       | SurfaceUnavailable | PixelBufferUnavailable => 0
       | Saved | DestinationOpenFailure => 1
       end)%nat.
Proof.
  unfold capture_outcome.
  destruct (disp_pax_buf env) as [buf|] eqn:Hb.
  - destruct (pixels buf) as [p|] eqn:Hp.
    + destruct (fopen_ok env (screenshot_filename (local_time env))) eqn:Hok.
      * rewrite (save_screenshot_saved env s buf p Hb Hp Hok).
        split; [reflexivity|]. split; [congruence|]. split.
        -- intros _. erewrite errors_logged_app
             by (unfold saved_state; cbn [log]; reflexivity).
           cbn. lia.
        -- erewrite count_calls_app
             by (unfold saved_state; cbn [calls]; reflexivity).
           reflexivity.
      * rewrite (save_screenshot_open_failure env s buf p Hb Hp Hok).
        split; [reflexivity|]. split; [|split].
        -- intros _. split; [reflexivity|].
           erewrite errors_logged_app
             by (unfold logged; cbn [log]; reflexivity).
           cbn. lia.
        -- discriminate.
        -- erewrite count_calls_app
             by (unfold logged; cbn [calls]; reflexivity).
           reflexivity.
    + rewrite (save_screenshot_no_pixels env s buf Hb Hp).
      split; [reflexivity|]. split; [|split].
      * intros _. split; [reflexivity|].
        erewrite errors_logged_app by (unfold logged; cbn [log]; reflexivity).
        cbn. lia.
      * discriminate.
      * erewrite count_calls_app
          by (unfold logged; cbn [calls]; reflexivity).
        cbn. lia.
  - rewrite (save_screenshot_no_surface env s Hb).
    split; [reflexivity|]. split; [|split].
    + intros _. split; [reflexivity|].
      erewrite errors_logged_app by (unfold logged; cbn [log]; reflexivity).
      cbn. lia.
    + discriminate.
    + erewrite count_calls_app by (unfold logged; cbn [calls]; reflexivity).
      cbn. lia.
Qed.

Lemma capture_failure_is_clean_witness :
  let (r, s') := save_screenshot env_card_missing state_stale in
  r = DestinationOpenFailure /\
  fs s' = fs state_stale /\
  errors_logged s' = S (errors_logged state_stale).
Proof.
  pose proof (capture_failure_is_clean env_card_missing state_stale) as H.
  destruct (save_screenshot env_card_missing state_stale) as [r s'].
  destruct H as (Hr & Hfail & _ & _).
  assert (Hout : r = DestinationOpenFailure) by (rewrite Hr; reflexivity).
  split; [exact Hout|]. apply Hfail. rewrite Hout. discriminate.
Defined.

(** X8.  A successful capture of a framebuffer that holds width * height
    triplets, with a byte count within [int], changes the file system in
    one place: the file at the computed path holds the header followed
    by the payload, whatever it held before, and every other file is as
    it was.  The destination is written afresh, never appended to. *)
Theorem capture_replaces_one_file (env : Env) (s : State) (buf : pax_buf_t)
    (p : list byte) :
  disp_pax_buf env = Some buf ->
  pixels buf = Some p ->
  0 < width buf ->
  0 < height buf ->
  Z.of_nat (length p) = width buf * height buf * 3 ->
  Z.of_nat (length p) <= INT_MAX ->
  fopen_ok env (screenshot_filename (local_time env)) = true ->
  let path := screenshot_filename (local_time env) in
  let s' := snd (save_screenshot env s) in
  fs s' !! path
  = Some (header_bytes (width buf) (height buf)
          ++ payload_bytes p (width buf) (height buf)) /\
  (forall other, other <> path -> fs s' !! other = fs s !! other) /\
  fs s' = fs (snd (save_screenshot env (with_file s path []))).
Proof.
  intros Hb Hp _ _ _ _ Hok path s'. subst s'.
  rewrite !(save_screenshot_saved env _ buf p Hb Hp Hok).
  unfold saved_state. cbn [snd fs with_file]. fold path.
  split; [apply lookup_insert_eq|]. split.
  - intros other Hne. apply lookup_insert_ne. congruence.
  - rewrite insert_insert_eq. reflexivity.
Qed.

Lemma capture_replaces_one_file_witness :
  let path := screenshot_filename (local_time env_ready) in
  let s' := snd (save_screenshot env_ready state_stale) in
  fs state_stale !! path = Some [xff; xff] /\
  fs s' !! path
  = Some (header_bytes 3 2 ++ payload_bytes sample_pixels 3 2) /\
  (forall other, other <> path -> fs s' !! other = fs state_stale !! other) /\
  fs s' = fs (snd (save_screenshot env_ready (with_file state_stale path []))).
Proof.
  intros path s'. split; [reflexivity|].
  apply (capture_replaces_one_file env_ready state_stale sample_buf
           sample_pixels); try reflexivity.
  unfold INT_MAX. cbn. lia.
Defined.

(** X9.  Two successful captures within the same second share their
    path: after the second, the file holds the second frame alone and
    nothing of the first.  Both framebuffers hold width * height
    triplets, with a byte count within [int]. *)
Theorem same_second_overwrites (env1 env2 : Env) (s : State)
    (buf1 buf2 : pax_buf_t) (p1 p2 : list byte) :
  disp_pax_buf env1 = Some buf1 -> pixels buf1 = Some p1 ->
  disp_pax_buf env2 = Some buf2 -> pixels buf2 = Some p2 ->
  0 < width buf1 -> 0 < height buf1 ->
  Z.of_nat (length p1) = width buf1 * height buf1 * 3 ->
  Z.of_nat (length p1) <= INT_MAX ->
  0 < width buf2 -> 0 < height buf2 ->
  Z.of_nat (length p2) = width buf2 * height buf2 * 3 ->
  Z.of_nat (length p2) <= INT_MAX ->
  local_time env1 = local_time env2 ->
  fopen_ok env1 (screenshot_filename (local_time env1)) = true ->
  fopen_ok env2 (screenshot_filename (local_time env2)) = true ->
  let s2 := snd (save_screenshot env2 (snd (save_screenshot env1 s))) in
  fs s2 = fs (snd (save_screenshot env2 s)) /\
  fs s2 !! screenshot_filename (local_time env1)
  = Some (header_bytes (width buf2) (height buf2)
          ++ payload_bytes p2 (width buf2) (height buf2)).
Proof.
  intros Hb1 Hp1 Hb2 Hp2 _ _ _ _ _ _ _ _ Htm Hok1 Hok2 s2. subst s2.
  rewrite (save_screenshot_saved env1 s buf1 p1 Hb1 Hp1 Hok1).
  rewrite !(save_screenshot_saved env2 _ buf2 p2 Hb2 Hp2 Hok2).
  unfold saved_state. cbn [snd fs]. rewrite Htm.
  rewrite insert_insert_eq. split; [reflexivity | apply lookup_insert_eq].
Qed.

Lemma same_second_overwrites_witness :
  let s2 := snd (save_screenshot env_red
                   (snd (save_screenshot env_ready state0))) in
  fs s2 = fs (snd (save_screenshot env_red state0)) /\
  fs s2 !! screenshot_filename (local_time env_ready)
  = Some (header_bytes 1 1 ++ payload_bytes [x00; x00; xff] 1 1).
Proof.
  apply (same_second_overwrites env_ready env_red state0 sample_buf
           {| width := 1; height := 1; pixels := Some [x00; x00; xff] |}
           sample_pixels [x00; x00; xff]); try reflexivity.
  all: unfold INT_MAX; cbn; lia.
Defined.

Lemma loop_bytes_nothing fuel :
  forall i n, loop_bytes fuel i n (fun _ => []) = [].
Proof.
  induction fuel as [|fuel IH]; intros i n; [reflexivity|].
  cbn [loop_bytes]. destruct (i <? n); [|reflexivity].
  rewrite IH. reflexivity.
Qed.

(** X10.  When the surface reports a width or a height that is zero or
    negative, neither loop body runs: the capture still succeeds and the
    file it leaves is the header alone, with no pixel read. *)
Theorem empty_surface_header_only (env : Env) (s : State) (buf : pax_buf_t)
    (p : list byte) :
  disp_pax_buf env = Some buf ->
  pixels buf = Some p ->
  fopen_ok env (screenshot_filename (local_time env)) = true ->
  width buf <= 0 \/ height buf <= 0 ->
  let (r, s') := save_screenshot env s in
  r = Saved /\
  fs s' !! screenshot_filename (local_time env)
  = Some (header_bytes (width buf) (height buf)).
Proof.
  intros Hb Hp Hok Hdim.
  rewrite (save_screenshot_saved env s buf p Hb Hp Hok).
  split; [reflexivity|]. unfold saved_state. cbn [fs].
  rewrite lookup_insert_eq. f_equal.
  assert (Hpay : payload_bytes p (width buf) (height buf) = []).
  { unfold payload_bytes. destruct Hdim as [Hw | Hh].
    - replace (Z.to_nat (width buf)) with 0%nat by lia.
      cbn [loop_bytes]. apply loop_bytes_nothing.
    - replace (Z.to_nat (height buf)) with 0%nat by lia. reflexivity. }
  rewrite Hpay. apply app_nil_r.
Qed.

Lemma empty_surface_header_only_witness :
  let (r, s') := save_screenshot env_flat state0 in
  r = Saved /\
  fs s' !! screenshot_filename (local_time env_flat)
  = Some (header_bytes 3 0).
Proof.
  apply (empty_surface_header_only env_flat state0
           {| width := 3; height := 0; pixels := Some [] |} []);
    try reflexivity.
  right. cbn. lia.
Defined.

Lemma byte_at_take p n idx :
  0 <= idx < Z.of_nat n -> byte_at (take n p) idx = byte_at p idx.
Proof.
  intros H. unfold byte_at.
  assert (Hneg : (idx <? 0) = false) by (apply Z.ltb_ge; lia).
  rewrite Hneg, !nth_lookup, lookup_take_lt by lia. reflexivity.
Qed.

Lemma payload_bytes_take p w h :
  0 < w -> 0 < h -> w * h * 3 <= INT_MAX ->
  payload_bytes (take (Z.to_nat (w * h * 3)) p) w h = payload_bytes p w h.
Proof.
  intros Hw Hh Hmax.
  rewrite !payload_bytes_swapped by assumption.
  apply flat_map_seq_ext. intros i Hi.
  assert (Hwh : 0 < w * h) by (apply Z.mul_pos_pos; assumption).
  unfold swapped_pixel. rewrite !byte_at_take by lia. reflexivity.
Qed.

(** X11.  The encoder reads the first [W * H * 3] bytes of the pixel
    buffer and no others: two framebuffers of the same size, each with
    at least [W * H * 3] bytes, that agree on those bytes give the same
    file, whatever follows them in memory, and the payload has
    [W * H * 3] bytes however much longer the buffer is. *)
Theorem encoder_reads_frame_only (env1 env2 : Env) (s1 s2 : State)
    (buf1 buf2 : pax_buf_t) (p1 p2 : list byte) :
  disp_pax_buf env1 = Some buf1 -> pixels buf1 = Some p1 ->
  disp_pax_buf env2 = Some buf2 -> pixels buf2 = Some p2 ->
  width buf1 = width buf2 -> height buf1 = height buf2 ->
  0 < width buf1 -> 0 < height buf1 ->
  width buf1 * height buf1 * 3 <= INT_MAX ->
  width buf1 * height buf1 * 3 <= Z.of_nat (length p1) ->
  width buf1 * height buf1 * 3 <= Z.of_nat (length p2) ->
  take (Z.to_nat (width buf1 * height buf1 * 3)) p1
  = take (Z.to_nat (width buf1 * height buf1 * 3)) p2 ->
  local_time env1 = local_time env2 ->
  fopen_ok env1 (screenshot_filename (local_time env1)) = true ->
  fopen_ok env2 (screenshot_filename (local_time env2)) = true ->
  let path := screenshot_filename (local_time env1) in
  fs (snd (save_screenshot env1 s1)) !! path
  = fs (snd (save_screenshot env2 s2)) !! path /\
  length (payload_bytes p1 (width buf1) (height buf1))
  = Z.to_nat (width buf1 * height buf1 * 3).
Proof.
  intros Hb1 Hp1 Hb2 Hp2 Hw Hh Hwpos Hhpos Hmax _ _ Htake Htm Hok1 Hok2 path.
  subst path.
  rewrite (save_screenshot_saved env1 s1 buf1 p1 Hb1 Hp1 Hok1).
  rewrite (save_screenshot_saved env2 s2 buf2 p2 Hb2 Hp2 Hok2).
  unfold saved_state. cbn [snd fs]. rewrite <- Htm, <- Hw, <- Hh.
  rewrite !lookup_insert_eq. split.
  - rewrite <- (payload_bytes_take p1), <- (payload_bytes_take p2)
      by assumption.
    rewrite Htake. reflexivity.
  - rewrite payload_bytes_swapped by assumption.
    rewrite (flat_map_blocks_length _ 3) by reflexivity.
    assert (Hwh : 0 < width buf1 * height buf1)
      by (apply Z.mul_pos_pos; assumption).
    lia.
Qed.

Lemma encoder_reads_frame_only_witness :
  let path := screenshot_filename (local_time env_ready) in
  fs (snd (save_screenshot env_ready state0)) !! path
  = fs (snd (save_screenshot env_padded state_stale)) !! path /\
  length (payload_bytes sample_pixels 3 2) = Z.to_nat (3 * 2 * 3).
Proof.
  apply (encoder_reads_frame_only env_ready env_padded state0 state_stale
           sample_buf sample_buf_padded sample_pixels
           (sample_pixels ++ [xaa; xbb; xcc; xdd])); try reflexivity.
  all: unfold INT_MAX; cbn; lia.
Defined.

(** ** More on the file name *)

Lemma string_take_all (s : string) :
  forall k : nat, (String.length s <= k)%nat -> string_take k s = s.
Proof.
  induction s as [|c s IH]; intros k Hk.
  - destruct k; reflexivity.
  - destruct k as [|k]; [cbn in Hk; lia|].
    cbn [string_take]. rewrite IH; [reflexivity | cbn in Hk; lia].
Qed.

Lemma zeros_length k : String.length (zeros k) = k.
Proof. induction k as [|k IH]; [reflexivity | cbn; by rewrite IH]. Qed.

Lemma digits_aux_length (f : nat) :
  forall n acc (k : nat),
    (1 <= k)%nat -> 0 <= n < 10 ^ Z.of_nat k ->
    (String.length (digits_aux f n acc) <= String.length acc + k)%nat.
Proof.
  induction f as [|f IH]; intros n acc k Hk Hn; [cbn; lia|].
  cbn [digits_aux].
  destruct (Z.ltb_spec n 10) as [Hlt|Hge]; [cbn; lia|].
  destruct k as [|k]; [lia|].
  assert (Hpow : 10 ^ Z.of_nat (S k) = 10 * 10 ^ Z.of_nat k)
    by (rewrite Nat2Z.inj_succ, Z.pow_succ_r; lia).
  assert (Hk' : (1 <= k)%nat).
  { destruct k; [cbn in Hpow; lia | lia]. }
  specialize (IH (n / 10) (String (digit_char (n mod 10)) acc) k Hk').
  cbn [String.length] in IH.
  assert (Hdiv : 0 <= n / 10 < 10 ^ Z.of_nat k).
  { split; [apply Z.div_pos; lia|]. apply Z.div_lt_upper_bound; lia. }
  specialize (IH Hdiv). lia.
Qed.

Lemma fmt_0d_4_length n :
  - 2 ^ 31 <= n < 2 ^ 31 -> (String.length (fmt_0d 4 n) <= 11)%nat.
Proof.
  intros Hn. unfold fmt_0d.
  assert (Hds : (String.length (digits (Z.abs n)) <= 10)%nat).
  { unfold digits.
    apply (digits_aux_length _ (Z.abs n) EmptyString 10); [lia|].
    change (10 ^ Z.of_nat 10) with 10000000000. lia. }
  rewrite !append_length, zeros_length.
  destruct (n <? 0); cbn [String.length]; lia.
Qed.

Lemma format_filename (t : tm) :
  calendar_time t ->
  - 2 ^ 31 <= tm_year t + 1900 < 2 ^ 31 ->
  format filename_fmt
    [Int (wrap_int (tm_year t + 1900)); Int (wrap_int (tm_mon t + 1));
     Int (tm_mday t); Int (tm_hour t); Int (tm_min t); Int (tm_sec t)]
  = untruncated_path t.
Proof.
  intros (Hmon & Hday & Hhour & Hmin & Hsec) Hyear.
  unfold filename_fmt, untruncated_path. cbn [format].
  rewrite !wrap_int_small by lia.
  rewrite !fmt_0d_two by lia.
  reflexivity.
Qed.

Lemma untruncated_path_length (t : tm) :
  - 2 ^ 31 <= tm_year t + 1900 < 2 ^ 31 ->
  (String.length (untruncated_path t) <= 40)%nat.
Proof.
  intros Hyear. unfold untruncated_path.
  rewrite !append_length.
  pose proof (fmt_0d_4_length _ Hyear) as H4.
  cbn [two_digits String.length path_root_prefix path_suffix]. lia.
Qed.

(** X12.  The 64-byte name buffer is always large enough: for every
    local time with calendar-range fields and any year an [int] can
    hold, [snprintf] cuts nothing off.  The path is the prefix, the year
    in at least four characters, the five two-digit fields and the
    ".ppm" suffix, at most 40 characters in all. *)
Theorem filename_never_truncated (t : tm) :
  calendar_time t ->
  - 2 ^ 31 <= tm_year t + 1900 < 2 ^ 31 ->
  screenshot_filename t = untruncated_path t /\
  (String.length (screenshot_filename t) <= 40)%nat.
Proof.
  intros Hcal Hyear.
  pose proof (untruncated_path_length t Hyear) as Hlen.
  assert (Heq : screenshot_filename t = untruncated_path t).
  { unfold screenshot_filename, snprintf.
    rewrite (format_filename t Hcal Hyear).
    apply string_take_all. change (64 - 1)%nat with 63%nat. lia. }
  split; [exact Heq | rewrite Heq; exact Hlen].
Qed.

Lemma filename_never_truncated_witness :
  calendar_time clock_year_10000 /\
  screenshot_filename clock_year_10000
  = "/sd/screenshot-100000305090702.ppm" /\
  (String.length (screenshot_filename clock_year_10000) <= 40)%nat.
Proof.
  assert (Hc : calendar_time clock_year_10000)
    by (cbv; intuition discriminate).
  assert (Hy : - 2 ^ 31 <= tm_year clock_year_10000 + 1900 < 2 ^ 31)
    by (cbv; intuition discriminate).
  split; [exact Hc|].
  exact (filename_never_truncated clock_year_10000 Hc Hy).
Defined.

Lemma digit_char_inj a b :
  0 <= a <= 9 -> 0 <= b <= 9 -> digit_char a = digit_char b -> a = b.
Proof.
  intros Ha Hb H.
  destruct (digit_char_byte a Ha) as [_ Hva].
  destruct (digit_char_byte b Hb) as [_ Hvb].
  rewrite <- Hva, <- Hvb, H. reflexivity.
Qed.

Lemma two_digits_inj a b :
  0 <= a <= 99 -> 0 <= b <= 99 -> two_digits a = two_digits b -> a = b.
Proof.
  intros Ha Hb H. unfold two_digits in H. injection H as H1 H0.
  apply digit_char_inj in H1; [| Z.div_mod_to_equations; lia ..].
  apply digit_char_inj in H0; [| Z.div_mod_to_equations; lia ..].
  Z.div_mod_to_equations. lia.
Qed.

Lemma append_assoc (s1 s2 s3 : string) :
  (s1 +:+ s2) +:+ s3 = s1 +:+ (s2 +:+ s3).
Proof.
  induction s1 as [|c s1 IH]; [reflexivity|].
  change (String c s1 +:+ s2) with (String c (s1 +:+ s2)).
  change (String c (s1 +:+ s2) +:+ s3) with (String c ((s1 +:+ s2) +:+ s3)).
  rewrite IH. reflexivity.
Qed.

Lemma append_two_digits_inj a b (s1 s2 : string) :
  two_digits a +:+ s1 = two_digits b +:+ s2 ->
  two_digits a = two_digits b /\ s1 = s2.
Proof.
  unfold two_digits. cbv [String.append]. intros H.
  injection H as H1 H0 Hs. rewrite H1, H0. split; [reflexivity | exact Hs].
Qed.

(** X13.  Distinct seconds get distinct files: for local times with
    calendar-range fields and years from 0 to 9999, two times that
    differ in any field give different paths.  Only captures within one
    second can collide. *)
Theorem distinct_times_distinct_files (t1 t2 : tm) :
  calendar_time t1 -> calendar_time t2 ->
  0 <= tm_year t1 + 1900 <= 9999 ->
  0 <= tm_year t2 + 1900 <= 9999 ->
  t1 <> t2 ->
  screenshot_filename t1 <> screenshot_filename t2.
Proof.
  intros Hc1 Hc2 Hy1 Hy2 Hne Heq. apply Hne.
  assert (H1 : screenshot_filename t1 = untruncated_path t1).
  { unfold screenshot_filename, snprintf.
    rewrite (format_filename t1 Hc1) by lia.
    apply string_take_all. change (64 - 1)%nat with 63%nat.
    pose proof (untruncated_path_length t1). lia. }
  assert (H2 : screenshot_filename t2 = untruncated_path t2).
  { unfold screenshot_filename, snprintf.
    rewrite (format_filename t2 Hc2) by lia.
    apply string_take_all. change (64 - 1)%nat with 63%nat.
    pose proof (untruncated_path_length t2). lia. }
  rewrite H1, H2 in Heq. unfold untruncated_path in Heq.
  rewrite !fmt_0d_four in Heq by assumption.
  apply String.app_inj in Heq. unfold four_digits in Heq.
  rewrite !append_assoc in Heq.
  destruct Hc1 as (Hmon1 & Hday1 & Hhour1 & Hmin1 & Hsec1).
  destruct Hc2 as (Hmon2 & Hday2 & Hhour2 & Hmin2 & Hsec2).
  apply append_two_digits_inj in Heq as [Hyh Heq].
  apply append_two_digits_inj in Heq as [Hyl Heq].
  apply append_two_digits_inj in Heq as [Hmon Heq].
  apply append_two_digits_inj in Heq as [Hday Heq].
  apply append_two_digits_inj in Heq as [Hhour Heq].
  apply append_two_digits_inj in Heq as [Hmin Heq].
  apply append_two_digits_inj in Heq as [Hsec _].
  apply two_digits_inj in Hyh; [| Z.div_mod_to_equations; lia ..].
  apply two_digits_inj in Hyl; [| Z.div_mod_to_equations; lia ..].
  apply two_digits_inj in Hmon; [| lia ..].
  apply two_digits_inj in Hday; [| lia ..].
  apply two_digits_inj in Hhour; [| lia ..].
  apply two_digits_inj in Hmin; [| lia ..].
  apply two_digits_inj in Hsec; [| lia ..].
  destruct t1 as [y1 mo1 d1 h1 mi1 se1], t2 as [y2 mo2 d2 h2 mi2 se2].
  cbn [tm_year tm_mon tm_mday tm_hour tm_min tm_sec] in *.
  f_equal; try lia. Z.div_mod_to_equations. lia.
Qed.

Lemma distinct_times_distinct_files_witness :
  clock_2024_03_05 <> clock_2024_03_05_later /\
  screenshot_filename clock_2024_03_05
  <> screenshot_filename clock_2024_03_05_later.
Proof.
  assert (Hne : clock_2024_03_05 <> clock_2024_03_05_later) by discriminate.
  split; [exact Hne|].
  apply (distinct_times_distinct_files clock_2024_03_05
           clock_2024_03_05_later);
    [cbv; intuition discriminate .. | exact Hne].
Defined.

(** ** More on the lifecycle *)

(** X14.  Initialisation and cleanup undo each other: after a
    successful [plugin_init] followed by [plugin_cleanup], from any
    state, the host's registry is what it was, the handle is -1, the
    stored context is cleared, and the only calls made are one register
    and one unregister of the same handle.  Files and the modifier flag
    are not touched. *)
Theorem init_cleanup_round_trip (env : Env) (ctx ctx' : Z) (s : State) :
  0 <= hook_register_result env ->
  let r := hook_register_result env in
  let s1 := snd (plugin_init env ctx s) in
  let s2 := snd (plugin_cleanup ctx' s1) in
  plugin_ctx s1 = Some ctx /\ hook_id s1 = r /\ hooks s1 = r :: hooks s /\
  hooks s2 = hooks s /\ hook_id s2 = -1 /\ plugin_ctx s2 = None /\
  calls_since s s2 [CallRegister r; CallUnregister r] /\
  fs s2 = fs s /\ logo_key_held s2 = logo_key_held s.
Proof.
  intros Hr r s1 s2. subst s1 s2.
  rewrite (plugin_init_registered env ctx s Hr). cbn [snd].
  rewrite plugin_cleanup_registered by exact Hr. fold r.
  unfold calls_since.
  cbn [snd plugin_ctx hook_id hooks calls fs logo_key_held remove_first].
  rewrite Z.eqb_refl, <- app_assoc. repeat split.
Qed.

Lemma init_cleanup_round_trip_witness :
  let s1 := snd (plugin_init env_ready 7 state_stale) in
  let s2 := snd (plugin_cleanup 7 s1) in
  plugin_ctx s1 = Some 7 /\ hook_id s1 = 3 /\
  hooks s1 = 3 :: hooks state_stale /\
  hooks s2 = hooks state_stale /\ hook_id s2 = -1 /\ plugin_ctx s2 = None /\
  calls_since state_stale s2 [CallRegister 3; CallUnregister 3] /\
  fs s2 = fs state_stale /\ logo_key_held s2 = logo_key_held state_stale.
Proof.
  apply (init_cleanup_round_trip env_ready 7 7 state_stale).
  cbv. discriminate.
Defined.

(** X15.  What a failed registration leaves behind: [plugin_init] has
    already stored the context and stores the host's negative answer as
    the handle, so both stay set after it returns -1; nothing is
    registered.  A later [plugin_cleanup] clears the context, makes no
    unregister call and leaves the handle at the host's negative value
    rather than -1. *)
Theorem failed_init_leftovers (env : Env) (ctx ctx' : Z) (s : State) :
  hook_register_result env < 0 ->
  let r := hook_register_result env in
  let (ret, s1) := plugin_init env ctx s in
  let s2 := snd (plugin_cleanup ctx' s1) in
  ret = -1 /\
  plugin_ctx s1 = Some ctx /\ hook_id s1 = r /\ hooks s1 = hooks s /\
  plugin_ctx s2 = None /\ hook_id s2 = r /\ hooks s2 = hooks s /\
  calls_since s s2 [CallRegister r] /\
  errors_logged s2 = S (errors_logged s).
Proof.
  intros Hr r. rewrite (plugin_init_failed env ctx s Hr). fold r.
  cbv zeta. rewrite plugin_cleanup_unregistered by exact Hr.
  unfold calls_since, errors_logged.
  cbn [snd plugin_ctx hook_id hooks calls log].
  rewrite !List.filter_app, !length_app.
  split; [reflexivity|]. repeat split. cbn. lia.
Qed.

Lemma failed_init_leftovers_witness :
  let (ret, s1) := plugin_init env_card_missing 7 state0 in
  let s2 := snd (plugin_cleanup 7 s1) in
  ret = -1 /\
  plugin_ctx s1 = Some 7 /\ hook_id s1 = -1 /\ hooks s1 = hooks state0 /\
  plugin_ctx s2 = None /\ hook_id s2 = -1 /\ hooks s2 = hooks state0 /\
  calls_since state0 s2 [CallRegister (-1)] /\
  errors_logged s2 = S (errors_logged state0).
Proof.
  apply (failed_init_leftovers env_card_missing 7 7 state0). reflexivity.
Defined.

(** X16.  [plugin_init] does not look at the handle it already holds: a
    second successful initialisation without a cleanup in between
    registers a second hook and overwrites the handle, and the cleanup
    that follows unregisters the later hook only.  The earlier hook
    stays in the host's registry. *)
Theorem second_init_keeps_first_hook (env1 env2 : Env) (ctx1 ctx2 ctx' : Z)
    (s : State) :
  0 <= hook_register_result env1 ->
  0 <= hook_register_result env2 ->
  let r1 := hook_register_result env1 in
  let r2 := hook_register_result env2 in
  let s2 := snd (plugin_init env2 ctx2 (snd (plugin_init env1 ctx1 s))) in
  let s3 := snd (plugin_cleanup ctx' s2) in
  hook_id s2 = r2 /\ hooks s2 = r2 :: r1 :: hooks s /\
  hook_id s3 = -1 /\ hooks s3 = r1 :: hooks s /\
  calls_since s s3 [CallRegister r1; CallRegister r2; CallUnregister r2].
Proof.
  intros Hr1 Hr2 r1 r2 s2 s3. subst s2 s3.
  rewrite (plugin_init_registered env1 ctx1 s Hr1). cbn [snd].
  rewrite (plugin_init_registered env2 ctx2 _ Hr2). cbn [snd].
  rewrite plugin_cleanup_registered by exact Hr2. fold r1 r2.
  unfold calls_since.
  cbn [snd plugin_ctx hook_id hooks calls remove_first].
  rewrite Z.eqb_refl, <- !app_assoc. repeat split.
Qed.

Lemma second_init_keeps_first_hook_witness :
  let s2 :=
    snd (plugin_init env_red 8 (snd (plugin_init env_ready 7 state0))) in
  let s3 := snd (plugin_cleanup 8 s2) in
  hook_id s2 = 4 /\ hooks s2 = [4; 3] /\
  hook_id s3 = -1 /\ hooks s3 = [3] /\
  calls_since state0 s3 [CallRegister 3; CallRegister 4; CallUnregister 4].
Proof.
  apply (second_init_keeps_first_hook env_ready env_red 7 8 8 state0);
    cbv; discriminate.
Defined.

(** ** The channel swap as a round trip *)

Lemma swap_twice (p : list byte) (n : nat) :
  length p = (3 * n)%nat ->
  flat_map (swapped_pixel (flat_map (swapped_pixel p) (seq 0 n))) (seq 0 n)
  = p.
Proof.
  intros Hlen.
  set (q := flat_map (swapped_pixel p) (seq 0 n)).
  assert (Hblock : forall (l : list byte) j, length (swapped_pixel l j) = 3%nat)
    by reflexivity.
  assert (Hq : length q = (3 * n)%nat)
    by apply (flat_map_blocks_length _ 3 (Hblock p)).
  apply list_eq. intros j.
  destruct (Nat.lt_ge_cases j (3 * n)) as [Hj | Hj].
  2:{ rewrite !lookup_ge_None_2; [reflexivity | lia |].
      rewrite (flat_map_blocks_length _ 3 (Hblock q)). lia. }
  set (i := (j / 3)%nat). set (k := (j mod 3)%nat).
  assert (Hjk : j = (3 * i + k)%nat) by (apply Nat.div_mod_eq).
  assert (Hk : (k < 3)%nat) by (apply Nat.mod_upper_bound; lia).
  assert (Hi : (i < n)%nat) by lia.
  rewrite Hjk.
  rewrite (flat_map_blocks_lookup _ 3 (Hblock q) n i k Hi Hk).
  destruct (swapped_pixel_lookup p i) as (b & g & r & Hp0 & Hp1 & Hp2 & Hsp);
    [lia|].
  destruct (swapped_pixel_lookup q i) as (b' & g' & r' & Hq0 & Hq1 & Hq2 & Hsq);
    [lia|].
  pose proof (flat_map_blocks_lookup _ 3 (Hblock p) n i 0 Hi) as H0.
  pose proof (flat_map_blocks_lookup _ 3 (Hblock p) n i 1 Hi) as H1.
  pose proof (flat_map_blocks_lookup _ 3 (Hblock p) n i 2 Hi) as H2.
  fold q in H0, H1, H2. rewrite Nat.add_0_r in H0.
  rewrite H0, Hsp in Hq0 by lia. rewrite H1, Hsp in Hq1 by lia.
  rewrite H2, Hsp in Hq2 by lia. cbn in Hq0, Hq1, Hq2.
  injection Hq0 as <-. injection Hq1 as <-. injection Hq2 as <-.
  rewrite Hsq.
  clearbody i.
  destruct k as [|[|[|k]]]; [| | | lia]; cbn -[Nat.mul Nat.add].
  - rewrite Nat.add_0_r. congruence.
  - congruence.
  - congruence.
Qed.

(** X17.  The channel swap undoes itself: when the payload of one
    capture is shown as the pixel buffer of a surface of the same size
    and captured again, the second payload is the first pixel buffer,
    byte for byte. *)
Theorem channel_swap_round_trip (env1 env2 : Env) (s1 s2 : State)
    (buf : pax_buf_t) (p : list byte) :
  disp_pax_buf env1 = Some buf ->
  pixels buf = Some p ->
  0 < width buf -> 0 < height buf ->
  Z.of_nat (length p) = width buf * height buf * 3 ->
  Z.of_nat (length p) <= INT_MAX ->
  disp_pax_buf env2
  = Some {| width := width buf; height := height buf;
            pixels := Some (payload_bytes p (width buf) (height buf)) |} ->
  fopen_ok env1 (screenshot_filename (local_time env1)) = true ->
  fopen_ok env2 (screenshot_filename (local_time env2)) = true ->
  fs (snd (save_screenshot env1 s1)) !! screenshot_filename (local_time env1)
  = Some (header_bytes (width buf) (height buf)
          ++ payload_bytes p (width buf) (height buf)) /\
  fs (snd (save_screenshot env2 s2)) !! screenshot_filename (local_time env2)
  = Some (header_bytes (width buf) (height buf) ++ p).
Proof.
  intros Hb1 Hp1 Hw Hh Hlen Hmax Hb2 Hok1 Hok2. rewrite Hlen in Hmax.
  rewrite (save_screenshot_saved env1 s1 buf p Hb1 Hp1 Hok1).
  rewrite (save_screenshot_saved env2 s2 _ _ Hb2 eq_refl Hok2).
  unfold saved_state. cbn [snd fs width height].
  rewrite !lookup_insert_eq. split; [reflexivity|].
  f_equal. f_equal.
  rewrite (payload_bytes_swapped _ _ _ Hw Hh Hmax).
  rewrite (payload_bytes_swapped p _ _ Hw Hh Hmax).
  apply swap_twice.
  assert (Hwh : 0 < width buf * height buf)
    by (apply Z.mul_pos_pos; assumption).
  lia.
Qed.

Lemma channel_swap_round_trip_witness :
  fs (snd (save_screenshot env_ready state0))
    !! screenshot_filename (local_time env_ready)
  = Some (header_bytes 3 2 ++ payload_bytes sample_pixels 3 2) /\
  fs (snd (save_screenshot env_swapped state0))
    !! screenshot_filename (local_time env_swapped)
  = Some (header_bytes 3 2 ++ sample_pixels).
Proof.
  apply (channel_swap_round_trip env_ready env_swapped state0 state0
           sample_buf sample_pixels); try reflexivity.
  unfold INT_MAX. cbn. lia.
Defined.
